(** * Job submission and resilient status polling (comprehensive_veo3_solution.js)

    A shallow embedding of the `/generate-video` handler and of
    `checkOperationStatusComprehensive`: the candidate registry
    `modelEndpoints`, the submission loop, the status prober with its generic
    fallback lookup, and the polling loop with its four-hour ceiling.

    The remote service, the credential provider, the HTTP transport and the
    timer are an abstract [backend]; the code is written in a small
    state-and-exception monad that threads the backend's state, the wall
    clock (`Date.now()`, in milliseconds) and a time-stamped trace of the
    effects the handler performs. *)

From Stdlib Require Import ZArith List String Ascii Bool Lia DecimalString.
Import ListNotations.
Open Scope string_scope.
Open Scope Z_scope.

(** ** JavaScript values the handler touches *)

(** A thrown value: `error.message`, `error.code` and
    `error.response?.status` are the only properties the code reads. *)
Record js_error := mk_error {
  message : string;
  code : option Z;
  response_status : option Z
}.

(** `new Error(msg)` carries neither a `code` nor a `response`. *)
Definition Error (msg : string) : js_error := mk_error msg None None.

(** The `TypeError` raised by reading property [prop] of `undefined`. *)
Definition TypeError_undefined (prop : string) : js_error :=
  mk_error ("Cannot read properties of undefined (reading '" ++ prop ++ "')")
           None None.

(** `status.response.videos[i]` *)
Record video := mk_video { gcsUri : option string }.

(** `status.response` *)
Record gen_response := mk_response {
  raiMediaFilteredCount : option Z;
  videos : option (list video)
}.

(** The payload of a status lookup (`response.data`); an absent `done`
    is falsy and is modelled as [false], an absent or null `response`
    as [None]. *)
Record status_payload := mk_payload {
  done : bool;
  response : option gen_response
}.

(** What `axios.get` resolves to. *)
Record axios_response := mk_axios { status : Z; data : status_payload }.

(** What `model.generateContent` resolves to: a long-running operation
    resource, of which only `name` is read. *)
Record operation_t := mk_operation { name : string }.

(** `req.body` of `POST /generate-video`. *)
Record request_body := mk_body {
  prompt : option string;
  aspectRatio : option string;
  durationSeconds : option Z;
  resolution : option string
}.

(** The `request` object built for `generateContent`. *)
Record gen_request := mk_request {
  text : string;
  rq_aspectRatio : string;
  sampleCount : Z;
  rq_durationSeconds : Z;
  rq_resolution : string
}.

(** The object returned by `checkOperationStatusComprehensive`:
    `{success: true, data, endpoint}` or `{success: false, error}`. *)
Inductive status_result :=
| Success (data : status_payload) (endpoint : string)
| Failure (error : string).

(** `res.status(code).json(body)`; every body of this handler is a flat
    object of strings. *)
Record http_reply := mk_reply {
  reply_status : Z;
  reply_body : list (string * string)
}.

(** ** Effects *)

(** One constructor per `console.log` / `console.warn` / `console.error`
    statement of the two functions. *)
Inductive console_line :=
| LogReceived (body : request_body)
| LogTesting (modelEndpoint : string)
| LogSubmitSuccess (modelEndpoint : string)
| LogSubmitFailed (modelEndpoint msg : string)
| LogOperationId (operationId modelUsed : string)
| LogAuthError (msg : string)
| LogStatusCheckOk (modelEndpoint : string)
| Log404 (modelEndpoint : string)
| LogEndpointError (modelEndpoint msg : string)
| LogDirectOk
| LogDirectFailed (msg : string)
| LogStatus (endpoint : string) (payload : status_payload)
| LogContentFiltered (count : Z)
| LogNoVideo
| LogVideoCompleted (videoUri : string)
| LogStatusCheckFailed (reason : string)
| LogStatusCheckError (msg : string)
| LogTimedOut (operationId : string)
| LogHandlerError (msg : string).

Inductive event :=
| EvGenerate (modelEndpoint : string)   (* model.generateContent *)
| EvGetAccessToken                      (* getAccessToken() *)
| EvGet (url : string)                  (* axios.get(url, ...) *)
| EvSleep (ms : Z)                      (* setTimeout(resolve, ms) *)
| EvConsole (line : console_line).

(** The outside world.  Every call returns its result, the time it took
    (a natural number of milliseconds, so the clock never runs backwards)
    and the next state of the world; a timer fires no earlier than asked,
    [setTimeout_io] gives by how much it is late. *)
Record backend := mk_backend {
  W : Type;
  generateContent_io :
    string -> gen_request -> W -> (js_error + operation_t) * N * W;
  getAccessToken_io : W -> (js_error + string) * N * W;
  axios_get_io : string -> string -> W -> (js_error + axios_response) * N * W;
  setTimeout_io : Z -> W -> N * W
}.

(** ** Strings: `includes('/')`, `split('/')`, `pop()` *)

Definition slash : ascii := "/"%char.

Fixpoint includes (c : ascii) (s : string) : bool :=
  match s with
  | EmptyString => false
  | String a r => if Ascii.eqb a c then true else includes c r
  end.

(** `s.split(c)`: never empty, `"".split(c)` is `[""]`. *)
Fixpoint split (c : ascii) (s : string) : list string :=
  match s with
  | EmptyString => [EmptyString]
  | String a r =>
      if Ascii.eqb a c then EmptyString :: split c r
      else match split c r with
           | h :: t => String a h :: t
           | [] => [String a EmptyString]
           end
  end.

(** `arr.pop()` as a value; `undefined` on an empty array. *)
Definition pop (l : list string) : option string :=
  match rev l with
  | [] => None
  | x :: _ => Some x
  end.

(** `s.split('/').pop()`; the array is never empty, so the default is
    never taken. *)
Definition last_segment (s : string) : string :=
  match pop (split slash s) with
  | Some x => x
  | None => EmptyString
  end.

(** JavaScript truthiness of an optional string: `undefined` and `''` are
    falsy. *)
Definition truthy (v : option string) : bool :=
  match v with
  | Some s => negb (String.eqb s EmptyString)
  | None => false
  end.

(** How a computation ends: `throw e` or a value. *)
Inductive outcome (A : Type) :=
| Threw (e : js_error)
| Returned (a : A).
Arguments Threw {A} e.
Arguments Returned {A} a.

Section Handler.

Variable B : backend.

(** `const modelEndpoints = [...]`, the candidate registry. *)
Variable modelEndpoints : list string.

(** ** The monad *)

Record state := mk_state {
  world : W B;
  clock : Z;
  trace : list (Z * event)
}.

Definition M (A : Type) : Type := state -> outcome A * state.

Definition ret {A} (a : A) : M A := fun s => (Returned a, s).

Definition throw {A} (e : js_error) : M A := fun s => (Threw e, s).

Definition bind {A C} (m : M A) (f : A -> M C) : M C :=
  fun s =>
    match m s with
    | (Returned a, s') => f a s'
    | (Threw e, s') => (Threw e, s')
    end.

(** `try { m } catch (error) { h error }` *)
Definition try_catch {A} (m : M A) (h : js_error -> M A) : M A :=
  fun s =>
    match m s with
    | (Returned a, s') => (Returned a, s')
    | (Threw e, s') => h e s'
    end.

Notation "x <- m ;; k" := (bind m (fun x => k))
  (at level 100, m at next level, right associativity).
Notation "m ;;; k" := (bind m (fun _ => k))
  (at level 100, right associativity).

(** Append an effect to the trace, stamped with the current time. *)
Definition emit (ev : event) : M unit :=
  fun s => (Returned tt,
            mk_state (world s) (clock s) (trace s ++ [(clock s, ev)])).

Definition console (l : console_line) : M unit := emit (EvConsole l).

(** `Date.now()` *)
Definition now : M Z := fun s => (Returned (clock s), s).

(** Run a backend call: the world moves on and the clock advances. *)
Definition io {A} (call : W B -> (js_error + A) * N * W B) : M A :=
  fun s =>
    match call (world s) with
    | (r, d, w') =>
        let s' := mk_state w' (clock s + Z.of_N d) (trace s) in
        match r with
        | inl e => (Threw e, s')
        | inr a => (Returned a, s')
        end
    end.

(** `await new Promise(resolve => setTimeout(resolve, ms))` *)
Definition sleep (ms : Z) : M unit :=
  emit (EvSleep ms) ;;;
  fun s =>
    match setTimeout_io B ms (world s) with
    | (late, w') =>
        (Returned tt, mk_state w' (clock s + ms + Z.of_N late) (trace s))
    end.

(** ** Configuration *)

Definition projectId : string := "dreamframe".

(** `${maxWaitSeconds}` inside a template literal. *)
Definition show_Z (z : Z) : string :=
  NilZero.string_of_int (Z.to_int z).

(** The status-lookup URL scoped to one candidate. *)
Definition candidate_url (modelEndpoint cleanOperationId : string) : string :=
  "https://us-central1-aiplatform.googleapis.com/v1/projects/" ++ projectId
  ++ "/locations/us-central1/publishers/google/models/" ++ modelEndpoint
  ++ "/operations/" ++ cleanOperationId.

(** The generic operations-lookup URL, scoped to no candidate. *)
Definition operationsUrl (cleanOperationId : string) : string :=
  "https://us-central1-aiplatform.googleapis.com/v1/projects/" ++ projectId
  ++ "/locations/us-central1/operations/" ++ cleanOperationId.

(** ** getAccessToken *)

Definition getAccessToken : M string :=
  try_catch
    (emit EvGetAccessToken ;;;
     io (getAccessToken_io B))
    (fun error =>
       console (LogAuthError (message error)) ;;;
       throw error).

(** `axios.get(url, { headers: { Authorization: `Bearer ${accessToken}` },
    timeout: 10000 })` *)
Definition axios_get (url accessToken : string) : M axios_response :=
  emit (EvGet url) ;;;
  io (axios_get_io B url accessToken).

(** ** checkOperationStatusComprehensive *)

(** The `for (const modelEndpoint of modelEndpoints)` loop of the prober,
    run over the candidates still to be tried; [Some r] is its
    `return r`, [None] is falling out of the loop. *)
Fixpoint lookup_candidates (accessToken cleanOperationId : string)
    (candidates : list string) : M (option status_result) :=
  match candidates with
  | [] => ret None
  | modelEndpoint :: rest =>
      r <- try_catch
             (let url := candidate_url modelEndpoint cleanOperationId in
              response <- axios_get url accessToken ;;
              if status response =? 200 then
                console (LogStatusCheckOk modelEndpoint) ;;;
                ret (Some (Success (data response) modelEndpoint))
              else ret None)
             (fun error =>
                if match response_status error with
                   | Some st => st =? 404
                   | None => false
                   end
                then console (Log404 modelEndpoint) ;;; ret None
                else console (LogEndpointError modelEndpoint (message error)) ;;;
                     ret None) ;;
      match r with
      | Some result => ret (Some result)
      | None => lookup_candidates accessToken cleanOperationId rest
      end
  end.

(** The "direct operations API" fallback block. *)
Definition lookup_direct (accessToken cleanOperationId : string)
    : M (option status_result) :=
  try_catch
    (response <- axios_get (operationsUrl cleanOperationId) accessToken ;;
     if status response =? 200 then
       console LogDirectOk ;;;
       ret (Some (Success (data response) "operations-api"))
     else ret None)
    (fun error =>
       console (LogDirectFailed (message error)) ;;;
       ret None).

Definition all_404_reason : string :=
  "All endpoint variations returned 404 - operation may not exist or VEO 3 API issue".

(** `operationId.includes('/') ? operationId.split('/').pop() : operationId` *)
Definition cleanOperationId_of (operationId : string) : string :=
  if includes slash operationId then last_segment operationId
  else operationId.

Definition checkOperationStatusComprehensive (operationId : string)
    : M status_result :=
  try_catch
    (accessToken <- getAccessToken ;;
     let cleanOperationId := cleanOperationId_of operationId in
     r <- lookup_candidates accessToken cleanOperationId modelEndpoints ;;
     match r with
     | Some result => ret result
     | None =>
         r' <- lookup_direct accessToken cleanOperationId ;;
         match r' with
         | Some result => ret result
         | None => ret (Failure all_404_reason)
         end
     end)
    (fun error => ret (Failure ("Status check failed: " ++ message error))).

(** ** POST /generate-video *)

Definition maxWaitSeconds : Z := 14400.

(** `modelEndpoint === modelEndpoints[modelEndpoints.length - 1]` *)
Definition is_last_endpoint (modelEndpoint : string) : bool :=
  match pop modelEndpoints with
  | Some l => String.eqb modelEndpoint l
  | None => false
  end.

(** The submission loop, run over the candidates still to be tried;
    [Some (operation, modelUsed)] is its `break`, [None] is falling out of
    the loop with both variables still `undefined`. *)
Fixpoint submit_loop (request : gen_request) (candidates : list string)
    : M (option (operation_t * string)) :=
  match candidates with
  | [] => ret None
  | modelEndpoint :: rest =>
      r <- try_catch
             (console (LogTesting modelEndpoint) ;;;
              emit (EvGenerate modelEndpoint) ;;;
              operation <- io (generateContent_io B modelEndpoint request) ;;
              console (LogSubmitSuccess modelEndpoint) ;;;
              ret (Some (operation, modelEndpoint)))
             (fun error =>
                console (LogSubmitFailed modelEndpoint (message error)) ;;;
                if is_last_endpoint modelEndpoint
                then throw (Error "All model endpoint variations failed")
                else ret None) ;;
      match r with
      | Some found => ret (Some found)
      | None => submit_loop request rest
      end
  end.

(** Lines 209-239: the submission loop followed by
    `operation.name.split('/').pop()`; returns `(operationId, modelUsed)`. *)
Definition submit (request : gen_request) : M (string * string) :=
  r <- submit_loop request modelEndpoints ;;
  match r with
  | Some (operation, modelUsed) =>
      let operationId := last_segment (name operation) in
      console (LogOperationId operationId modelUsed) ;;;
      ret (operationId, modelUsed)
  | None => throw (TypeError_undefined "name")
  end.

(** `response.videos?.[0]?.gcsUri` *)
Definition first_gcsUri (r : gen_response) : option string :=
  match videos r with
  | Some (v :: _) => gcsUri v
  | _ => None
  end.

(** `response.raiMediaFilteredCount > 0` *)
Definition filtered (r : gen_response) : bool :=
  match raiMediaFilteredCount r with
  | Some n => 0 <? n
  | None => false
  end.

Definition timed_out_message (operationId : string) : string :=
  "Operation " ++ operationId ++ " timed out after " ++ show_Z maxWaitSeconds
  ++ " seconds".

(** One pass through the `try { ... } catch (error) { ... }` of the
    polling loop: [Some r] is `return res...json(...)`, [None] is reaching
    the 30-second wait. *)
Definition poll_tick (operationId modelUsed : string) : M (option http_reply) :=
  try_catch
    (statusResult <- checkOperationStatusComprehensive operationId ;;
     match statusResult with
     | Success status endpoint =>
         console (LogStatus endpoint status) ;;;
         if done status then
           response <- match response status with
                       | Some r => ret r
                       | None => throw (TypeError_undefined "raiMediaFilteredCount")
                       end ;;
           if filtered response then
             console (LogContentFiltered
                        (match raiMediaFilteredCount response with
                         | Some n => n | None => 0 end)) ;;;
             ret (Some (mk_reply 400
               [("error", "Video generation failed due to content filtering");
                ("details", "Prompt may violate safety policies")]))
           else
             let videoUri := first_gcsUri response in
             if negb (truthy videoUri) then
               console LogNoVideo ;;;
               ret (Some (mk_reply 500 [("error", "No video generated")]))
             else
               let videoUri := match videoUri with Some u => u | None => "" end in
               console (LogVideoCompleted videoUri) ;;;
               ret (Some (mk_reply 200
                 [("videoUri", videoUri);
                  ("operationId", operationId);
                  ("status", "success");
                  ("endpoint", endpoint);
                  ("model", modelUsed)]))
         else ret None
     | Failure error =>
         console (LogStatusCheckFailed error) ;;;
         ret None
     end)
    (fun error =>
       console (LogStatusCheckError (message error)) ;;;
       ret None).

(** The `while (Date.now() - startTime < maxWaitSeconds * 1000)` loop and
    the 504 reply after it.  [fuel] bounds the number of times the loop
    condition is evaluated; [None] means the bound was reached. *)
Fixpoint poll_loop (fuel : nat) (operationId modelUsed : string)
    (startTime : Z) : M (option http_reply) :=
  match fuel with
  | O => ret None
  | S fuel' =>
      t <- now ;;
      if t - startTime <? maxWaitSeconds * 1000 then
        r <- poll_tick operationId modelUsed ;;
        match r with
        | Some answer => ret (Some answer)
        | None =>
            sleep 30000 ;;;
            poll_loop fuel' operationId modelUsed startTime
        end
      else
        console (LogTimedOut operationId) ;;;
        ret (Some (mk_reply 504
          [("error", timed_out_message operationId);
           ("model", modelUsed)]))
  end.

(** The loop condition is evaluated at most this many times: each pass
    waits at least 30 seconds, and 480 passes fill the four hours. *)
Definition max_checks : nat := 481.

(** The destructuring defaults of `req.body` and the `request` object
    (`Number(durationSeconds)` on a number is the number). *)
Definition build_request (body : request_body) : gen_request :=
  mk_request
    (match prompt body with Some p => p | None => "" end)
    (match aspectRatio body with Some a => a | None => "16:9" end)
    1
    (match durationSeconds body with Some d => d | None => 5 end)
    (match resolution body with Some r => r | None => "720p" end).

(** The handler.  [None] only if [fuel] ran out inside the polling loop. *)
Definition generate_video (fuel : nat) (body : request_body)
    : M (option http_reply) :=
  try_catch
    (console (LogReceived body) ;;;
     if negb (truthy (prompt body)) then
       ret (Some (mk_reply 400 [("error", "Prompt is required")]))
     else
       let request := build_request body in
       sub <- submit request ;;
       let '(operationId, modelUsed) := sub in
       startTime <- now ;;
       poll_loop fuel operationId modelUsed startTime)
    (fun error =>
       console (LogHandlerError (message error)) ;;;
       if match code error with Some c => c =? 429 | None => false end then
         ret (Some (mk_reply 429
           [("error", "Quota exceeded, please try again later");
            ("details", message error)]))
       else
         ret (Some (mk_reply 500
           [("error", "Internal server error");
            ("details", message error)]))).

(** ** Vocabulary of the properties *)

(** What a run adds to the trace. *)
Definition added (s s' : state) (evs : list (Z * event)) : Prop :=
  trace s' = (trace s ++ evs)%list.

(** A payload that some lookup answered with HTTP 200. *)
Definition served (p : status_payload) : Prop :=
  exists url tok w r d w',
    axios_get_io B url tok w = (inr r, d, w') /\ status r = 200 /\ data r = p.

(** The state in which the lookups start once the token is there. *)
Definition after_token (s : state) (d : N) (w' : W B) : state :=
  mk_state w' (clock s + Z.of_N d) (trace s ++ [(clock s, EvGetAccessToken)])%list.

(** [s] after one console line. *)
Definition say (s : state) (l : console_line) : state :=
  mk_state (world s) (clock s) (trace s ++ [(clock s, EvConsole l)])%list.

(** The three terminal replies of the classification. *)
Definition reply_filtered : http_reply :=
  mk_reply 400
    [("error", "Video generation failed due to content filtering");
     ("details", "Prompt may violate safety policies")].

Definition reply_no_video : http_reply :=
  mk_reply 500 [("error", "No video generated")].

Definition reply_success (videoUri operationId endpoint modelUsed : string)
    : http_reply :=
  mk_reply 200
    [("videoUri", videoUri); ("operationId", operationId);
     ("status", "success"); ("endpoint", endpoint); ("model", modelUsed)].

Definition reply_timed_out (operationId modelUsed : string) : http_reply :=
  mk_reply 504
    [("error", timed_out_message operationId); ("model", modelUsed)].

(** The error thrown when the last candidate has refused. *)
Definition all_failed : js_error := Error "All model endpoint variations failed".

(** The replies of the outer `catch`. *)
Definition reply_internal_error (details : string) : http_reply :=
  mk_reply 500 [("error", "Internal server error"); ("details", details)].

Definition reply_quota (details : string) : http_reply :=
  mk_reply 429
    [("error", "Quota exceeded, please try again later"); ("details", details)].

(** A payload on which a pass produces no reply: the job is not done, or
    it is done and the payload has no `response`. *)
Definition inconclusive (p : status_payload) : Prop :=
  done p = false \/ (done p = true /\ response p = None).

(** A job that never reaches `done`. *)
Definition never_done : Prop := forall p, served p -> done p = false.

End Handler.

Arguments ret {B A} a.
Arguments throw {B A} e.
Arguments bind {B A C} m f.
Arguments try_catch {B A} m h.
Arguments mk_state {B} world clock trace.
Arguments world {B} s.
Arguments clock {B} s.
Arguments trace {B} s.
Arguments added {B} s s' evs.
Arguments after_token {B} s d w'.
Arguments say {B} s l.

(** ** Reading a trace *)

(** The candidates handed to `generateContent`, in order. *)
Fixpoint generated (evs : list (Z * event)) : list string :=
  match evs with
  | [] => []
  | (_, EvGenerate c) :: r => c :: generated r
  | _ :: r => generated r
  end.

(** The URLs handed to `axios.get`, in order. *)
Fixpoint requested (evs : list (Z * event)) : list string :=
  match evs with
  | [] => []
  | (_, EvGet url) :: r => url :: requested r
  | _ :: r => requested r
  end.

(** The console lines, in order. *)
Fixpoint logged (evs : list (Z * event)) : list console_line :=
  match evs with
  | [] => []
  | (_, EvConsole l) :: r => l :: logged r
  | _ :: r => logged r
  end.

(** The times at which a probe was started: `getAccessToken()` is the
    first statement of `checkOperationStatusComprehensive`. *)
Fixpoint probe_starts (evs : list (Z * event)) : list Z :=
  match evs with
  | [] => []
  | (t, EvGetAccessToken) :: r => t :: probe_starts r
  | _ :: r => probe_starts r
  end.

(** An effect of the polling stage: a token request, a lookup or a wait. *)
Definition is_polling (ev : event) : bool :=
  match ev with
  | EvGetAccessToken | EvGet _ | EvSleep _ => true
  | _ => false
  end.

(** The polling effects of a trace. *)
Definition polling (evs : list (Z * event)) : list (Z * event) :=
  filter (fun e => is_polling (snd e)) evs.

(** ** Scripted backends, to run the handler on concrete scenarios *)

(** Submission answers by candidate, one fixed answer of the credential
    provider, lookups answering by URL and by the number of lookups made so
    far (the state of the world).  A submission takes a second, a token
    100 ms, a lookup 200 ms, and timers are punctual. *)
Definition scripted
    (gen : string -> js_error + operation_t)
    (tok : js_error + string)
    (get : string -> nat -> js_error + axios_response) : backend :=
  mk_backend nat
    (fun c _ w => (gen c, 1000%N, w))
    (fun w => (tok, 100%N, w))
    (fun url _ w => (get url w, 200%N, S w))
    (fun _ w => (0%N, w)).

(** The registry of the source. *)
Definition modelEndpoints_src : list string :=
  ["veo-3"; "veo-3.0-generate-001"; "video-generation"].

Definition not_found : js_error := mk_error "Request failed with status code 404" None (Some 404).
Definition econnreset : js_error := mk_error "socket hang up" None None.
Definition quota_error : js_error := mk_error "Quota exceeded for aiplatform.googleapis.com" (Some 429) None.

Definition start_state (B : backend) (w : W B) : state B := mk_state w 0 [].

Definition sunset : request_body := mk_body (Some "sunset") None (Some 5) None.

(** The resource a submission answers in the scenarios below. *)
Definition accepted_op42 : operation_t :=
  mk_operation "projects/dreamframe/locations/us-central1/operations/op42".

(** Only the second candidate of the registry accepts. *)
Definition scenario_accepts (c : string) : option operation_t :=
  if String.eqb c "veo-3.0-generate-001" then Some accepted_op42 else None.

(** The end-to-end scenario of the specification on the registry of the
    source: the first candidate refuses, the second accepts, three lookups
    say `done: false`, the fourth carries a video.  Only the URL scoped to
    the first candidate knows the operation. *)
Definition scenario_backend : backend :=
  scripted
    (fun c => match scenario_accepts c with
              | Some op => inr op
              | None => inl econnreset
              end)
    (inr "tok")
    (fun url n =>
       if String.eqb url (candidate_url "veo-3" "op42") then
         if (n <? 3)%nat then inr (mk_axios 200 (mk_payload false None))
         else inr (mk_axios 200 (mk_payload true
                (Some (mk_response (Some 0) (Some [mk_video (Some "gs://bucket/v.mp4")])))))
       else inl not_found).

(** Every candidate refuses the submission with a quota error
    (`error.code === 429`). *)
Definition quota_backend : backend :=
  scripted (fun _ => inl quota_error) (inr "tok") (fun _ _ => inl not_found).

(** Backends on which the first candidate accepts and the token is
    there; they differ in how lookups are answered. *)
Definition lookup_backend (get : string -> nat -> js_error + axios_response)
    : backend :=
  scripted (fun _ => inr accepted_op42) (inr "tok") get.

(** Every lookup is answered 404. *)
Definition unknown_op_backend : backend :=
  lookup_backend (fun _ _ => inl not_found).

(** Every lookup fails in transport: no HTTP response at all. *)
Definition transport_backend : backend :=
  lookup_backend (fun _ _ => inl econnreset).

(** Only the generic operations URL knows the operation. *)
Definition fallback_backend : backend :=
  lookup_backend
    (fun url _ =>
       if String.eqb url (operationsUrl "op42")
       then inr (mk_axios 200 (mk_payload false None))
       else inl not_found).

(** The operation has failed remotely: every lookup answers 200 with
    `done: true` and an `error` instead of a `response`. *)
Definition failed_op_backend : backend :=
  lookup_backend (fun _ _ => inr (mk_axios 200 (mk_payload true None))).

(** The operation never completes. *)
Definition never_done_backend : backend :=
  lookup_backend (fun _ _ => inr (mk_axios 200 (mk_payload false None))).

(** The runs the properties are checked on. *)

(** The submission stage of the scenario, and the first probe after it. *)
Definition scenario_submit :=
  submit scenario_backend modelEndpoints_src (build_request sunset)
    (start_state scenario_backend O).

Definition scenario_first_probe :=
  checkOperationStatusComprehensive scenario_backend modelEndpoints_src
    "op42" (snd scenario_submit).

(** The handler on the remotely failed operation and on the quota
    refusal. *)
Definition failed_op_run :=
  generate_video failed_op_backend modelEndpoints_src max_checks sunset
    (start_state failed_op_backend O).

Definition quota_run :=
  generate_video quota_backend modelEndpoints_src max_checks sunset
    (start_state quota_backend O).

(** The first probe of an operation no URL knows, and of the remotely
    failed one. *)
Definition unknown_op_probe :=
  checkOperationStatusComprehensive unknown_op_backend modelEndpoints_src
    "op42" (start_state unknown_op_backend O).

Definition failed_op_probe :=
  checkOperationStatusComprehensive failed_op_backend modelEndpoints_src
    "op42" (start_state failed_op_backend O).

(** ** GET /check-operation/:operationId *)

(** The console line of the route. *)
Inductive route_line :=
| LogCheckingOperation (operationId : string).

(** `res.json(result)` (HTTP 200) or `res.status(500).json({ error })`. *)
Inductive operation_reply :=
| OperationJson (result : status_result)
| OperationError (msg : string).

Section Routes.

Variable B : backend.
Variable modelEndpoints : list string.

(** The route handler.  Its one console line is written before the
    prober is called, so it is there on both paths; it is returned beside
    the reply, the effects of the prober go to the trace. *)
Definition check_operation (operationId : string)
    : M B (list route_line * operation_reply) :=
  try_catch
    (bind (checkOperationStatusComprehensive B modelEndpoints operationId)
       (fun result =>
          ret ([LogCheckingOperation operationId], OperationJson result)))
    (fun error =>
       ret ([LogCheckingOperation operationId], OperationError (message error))).

End Routes.

(** ** More vocabulary *)

(** Times that are at least [gap] apart, the first not before [lo]. *)
Fixpoint paced (gap lo : Z) (ts : list Z) : Prop :=
  match ts with
  | [] => True
  | t :: r => lo <= t /\ paced gap (t + gap) r
  end.

(** ** More scenarios *)

Definition server_error : js_error :=
  mk_error "Request failed with status code 500" None (Some 500).

(** The operation is done, its output was filtered, and the payload
    lists a video all the same. *)
Definition filtered_payload : status_payload :=
  mk_payload true
    (Some (mk_response (Some 1) (Some [mk_video (Some "gs://bucket/v.mp4")]))).

Definition filtered_backend : backend :=
  lookup_backend (fun _ _ => inr (mk_axios 200 filtered_payload)).

(** Lookups scoped to the first candidate fail with a 500, the URL
    scoped to the second candidate knows the operation. *)
Definition second_candidate_backend : backend :=
  lookup_backend
    (fun url _ =>
       if String.eqb url (candidate_url "veo-3.0-generate-001" "op42")
       then inr (mk_axios 200 (mk_payload false None))
       else inl server_error).



(** A request body without a prompt. *)
Definition no_prompt : request_body := mk_body None None None None.

(** ** nodejs_veo3_server.js: retryOperation *)

(** What `retryOperation` does to the outside, in order. *)
Inductive retry_effect :=
| RetryGet                              (* operation.get() *)
| RetryLog (delayMs attempts : Z)       (* console.log(`Retrying ...`) *)
| RetrySleep (delayMs : Z).             (* setTimeout(resolve, delayMs) *)

Section RetryOperation.

Variable A : Type.

(** The remote operation: [answers k] is what the call number [k] of
    `operation.get()` (counted from 0) resolves or rejects with. *)
Variable answers : nat -> js_error + A.

(** The three numbers are integers, as at the call site of the source,
    `retryOperation(operation, 5, 1000, 60000)`; numbers that are not
    integers are outside this model. *)
Variables maxAttempts minDelayMs maxDelayMs : Z.

(** `error.code !== 5` *)
Definition code_is_not_5 (error : js_error) : bool :=
  match code error with
  | Some c => negb (c =? 5)
  | None => true
  end.

(** `Math.min(minDelayMs * Math.pow(2, attempts), maxDelayMs)`, in exact
    integer arithmetic.  This is the number the source computes as long as
    `Math.pow(2, attempts)` is finite (`attempts` below 1024) and
    `minDelayMs` is not negative; beyond that the source leaves the
    integers (`Infinity`, `NaN`) and the model does not follow it.  The
    properties below stay within the call site's numbers. *)
Definition retry_delay (attempts : Z) : Z :=
  Z.min (minDelayMs * 2 ^ attempts) maxDelayMs.

(** The `while (attempts < maxAttempts)` loop and the `throw` after it,
    entered with [attempts] failed calls behind it; every call made so
    far has failed, so the next call is call number [attempts].  [fuel]
    bounds the evaluations of the loop condition, [None] means the bound
    was reached. *)
Fixpoint retry_loop (fuel : nat) (attempts : Z)
    : option (outcome A * list retry_effect) :=
  match fuel with
  | O => None
  | S fuel' =>
      if attempts <? maxAttempts then
        match answers (Z.to_nat attempts) with
        | inr result => Some (Returned result, [RetryGet])
        | inl error =>
            if code_is_not_5 error || (attempts =? maxAttempts - 1)
            then Some (Threw error, [RetryGet])
            else
              let attempts' := attempts + 1 in
              let delayMs := retry_delay attempts' in
              match retry_loop fuel' attempts' with
              | Some (r, effects) =>
                  Some (r, RetryGet :: RetryLog delayMs attempts'
                             :: RetrySleep delayMs :: effects)
              | None => None
              end
        end
      else Some (Threw (Error "Max retry attempts reached"), [])
  end.

(** `retryOperation(operation, maxAttempts, minDelayMs, maxDelayMs)`:
    `attempts` starts at 0 and grows by one per pass, so the condition is
    evaluated at most `maxAttempts + 1` times. *)
Definition retryOperation : option (outcome A * list retry_effect) :=
  retry_loop (S (Z.to_nat maxAttempts)) 0.

End RetryOperation.

Arguments retry_loop {A} answers maxAttempts minDelayMs maxDelayMs fuel attempts.
Arguments retryOperation {A} answers maxAttempts minDelayMs maxDelayMs.

(** The calls of `operation.get()` among the effects. *)
Fixpoint retry_calls (effects : list retry_effect) : nat :=
  match effects with
  | [] => O
  | RetryGet :: r => S (retry_calls r)
  | _ :: r => retry_calls r
  end.

(** The waits among the effects, in order. *)
Fixpoint retry_sleeps (effects : list retry_effect) : list Z :=
  match effects with
  | [] => []
  | RetrySleep ms :: r => ms :: retry_sleeps r
  | _ :: r => retry_sleeps r
  end.

(** What a call answers, as an outcome. *)
Definition outcome_of {A} (r : js_error + A) : outcome A :=
  match r with
  | inl e => Threw e
  | inr a => Returned a
  end.

(** The error of a lookup that finds nothing (`error.code === 5`). *)
Definition grpc_not_found : js_error := mk_error "5 NOT_FOUND" (Some 5) None.

(** An operation that is not found twice and then answers. *)
Definition found_at_third (k : nat) : js_error + status_payload :=
  if (k <? 2)%nat then inl grpc_not_found else inr (mk_payload false None).

(** * Properties *)

Open Scope list_scope.

Lemma generated_app : forall a b, generated (a ++ b) = generated a ++ generated b.
Proof.
  induction a as [|[t ev] a IH]; intros b; simpl; [reflexivity|].
  destruct ev; simpl; rewrite IH; reflexivity.
Qed.

Lemma requested_app : forall a b, requested (a ++ b) = requested a ++ requested b.
Proof.
  induction a as [|[t ev] a IH]; intros b; simpl; [reflexivity|].
  destruct ev; simpl; rewrite IH; reflexivity.
Qed.

Lemma logged_app : forall a b, logged (a ++ b) = logged a ++ logged b.
Proof.
  induction a as [|[t ev] a IH]; intros b; simpl; [reflexivity|].
  destruct ev; simpl; rewrite IH; reflexivity.
Qed.

Lemma probe_starts_app :
  forall a b, probe_starts (a ++ b) = probe_starts a ++ probe_starts b.
Proof.
  induction a as [|[t ev] a IH]; intros b; simpl; [reflexivity|].
  destruct ev; simpl; rewrite IH; reflexivity.
Qed.

(** `split` never returns the empty array, so `pop` always finds a
    segment. *)
Lemma split_not_nil : forall c s, split c s <> [].
Proof.
  intros c s; destruct s as [|a r]; simpl; [discriminate|].
  destruct (Ascii.eqb a c); [discriminate|].
  destruct (split c r); discriminate.
Qed.

Lemma pop_split_some : forall s, exists x, pop (split slash s) = Some x.
Proof.
  intros s. unfold pop.
  destruct (rev (split slash s)) as [|x r] eqn:E.
  - apply (f_equal (@rev string)) in E. rewrite rev_involutive in E.
    simpl in E. destruct (split_not_nil _ _ E).
  - exists x; reflexivity.
Qed.

(** Without a slash the string is its own last segment, so
    `cleanOperationId` is the last segment in both branches. *)
Lemma split_no_slash : forall s, includes slash s = false -> split slash s = [s].
Proof.
  induction s as [|a r IH]; simpl; intros H; [reflexivity|].
  destruct (Ascii.eqb a slash); [discriminate|].
  rewrite (IH H); reflexivity.
Qed.

Lemma cleanOperationId_last_segment :
  forall s, cleanOperationId_of s = last_segment s.
Proof.
  intros s. unfold cleanOperationId_of.
  destruct (includes slash s) eqn:E; [reflexivity|].
  unfold last_segment. rewrite (split_no_slash _ E). reflexivity.
Qed.

Lemma pop_snoc : forall l x, pop (l ++ [x]) = Some x.
Proof. intros l x. unfold pop. rewrite rev_unit. reflexivity. Qed.

(** `s.split('/').pop()` is the part of [s] after its last slash: it
    contains no slash, and [s] is either that segment alone or some prefix,
    a slash, and the segment. *)
Lemma split_snoc : forall s,
  exists l x,
    split slash s = l ++ [x] /\ includes slash x = false /\
    (l = [] -> s = x) /\
    (l <> [] -> exists pre, s = (pre ++ "/" ++ x)%string).
Proof.
  induction s as [|a r (l & x & Hs & Hx & Hnil & Hcons)].
  - exists [], ""%string. repeat split; try reflexivity. intros H; congruence.
  - cbn [split]. destruct (Ascii.eqb a slash) eqn:Ha.
    + apply Ascii.eqb_eq in Ha. subst a.
      exists (""%string :: l), x. rewrite Hs. repeat split; try assumption.
      * intros H; discriminate.
      * intros _. destruct l as [|h l'].
        -- exists ""%string. rewrite (Hnil eq_refl). reflexivity.
        -- destruct Hcons as (pre & ->); [discriminate|].
           exists (String slash pre). reflexivity.
    + rewrite Hs. destruct l as [|h l']; cbn [app].
      * exists [], (String a x). repeat split.
        -- cbn [includes]. rewrite Ha. exact Hx.
        -- intros _. rewrite (Hnil eq_refl). reflexivity.
        -- intros H; congruence.
      * exists (String a h :: l'), x. repeat split; try assumption.
        -- intros H; discriminate.
        -- intros _. destruct Hcons as (pre & ->); [discriminate|].
           exists (String a pre). reflexivity.
Qed.

Lemma last_segment_spec : forall s,
  includes slash (last_segment s) = false /\
  (s = last_segment s \/ exists pre, s = (pre ++ "/" ++ last_segment s)%string).
Proof.
  intros s. destruct (split_snoc s) as (l & x & Hs & Hx & Hnil & Hcons).
  unfold last_segment. rewrite Hs, pop_snoc. split; [exact Hx|].
  destruct l as [|h l']; [left; apply Hnil; reflexivity|].
  right. apply Hcons. discriminate.
Qed.

(** A string in which `includes('/')` finds nothing cannot be cut around
    a slash. *)
Lemma includes_false_no_slash : forall x,
  includes slash x = false -> forall a b, x <> (a ++ "/" ++ b)%string.
Proof.
  intros x Hx a; revert x Hx. induction a as [|c a IH]; intros x Hx b E; subst x.
  - cbn in Hx. discriminate.
  - cbn [String.append includes] in Hx.
    destruct (Ascii.eqb c slash); [discriminate|].
    exact (IH _ Hx b eq_refl).
Qed.

Section Proofs.

Variable B : backend.
Variable modelEndpoints : list string.

Notation "'state'" := (state B).
Notation "'probe'" := (checkOperationStatusComprehensive B modelEndpoints).
Notation "'tick'" := (poll_tick B modelEndpoints).
Notation "'loop'" := (poll_loop B modelEndpoints).
Notation "'lookups'" := (lookup_candidates B).
Notation "'direct'" := (lookup_direct B).
Notation "'served'" := (served B).
Notation "'never_done'" := (never_done B).

Lemma added_refl : forall s : state, added s s [].
Proof. intros s; unfold added; rewrite app_nil_r; reflexivity. Qed.

Lemma added_trans : forall (s1 s2 s3 : state) e1 e2,
  added s1 s2 e1 -> added s2 s3 e2 -> added s1 s3 (e1 ++ e2).
Proof.
  unfold added; intros s1 s2 s3 e1 e2 H1 H2.
  rewrite H2, H1, app_assoc; reflexivity.
Qed.

Ltac run := cbv [bind try_catch ret throw emit console io now axios_get sleep];
            cbn [fst snd world clock trace].

(** One candidate-scoped lookup: what it returns, and that it adds one
    request for the candidate's URL, no token request and no time travel. *)
Lemma lookups_cons : forall tok cid c rest s,
  exists s1 evs,
    match axios_get_io B (candidate_url c cid) tok (world s) with
    | (inr r, _, _) =>
        if status r =? 200
        then lookups tok cid (c :: rest) s = (Returned (Some (Success (data r) c)), s1)
        else lookups tok cid (c :: rest) s = lookups tok cid rest s1
    | (inl _, _, _) => lookups tok cid (c :: rest) s = lookups tok cid rest s1
    end /\
    added s s1 evs /\ requested evs = [candidate_url c cid] /\
    probe_starts evs = [] /\ generated evs = [] /\ clock s <= clock s1.
Proof.
  intros tok cid c rest s. cbn [lookup_candidates]. run.
  destruct (axios_get_io B (candidate_url c cid) tok (world s)) as [[[e|r] d] w'].
  - destruct (match response_status e with Some st => st =? 404 | None => false end);
      eexists; eexists; (split; [reflexivity|]);
      (split; [unfold added; cbn [trace]; rewrite <- ?app_assoc; reflexivity|]);
      cbn; repeat split; try reflexivity; lia.
  - destruct (status r =? 200);
      eexists; eexists; (split; [reflexivity|]);
      (split; [unfold added; cbn [trace]; rewrite <- ?app_assoc; reflexivity|]);
      cbn; repeat split; try reflexivity; lia.
Qed.

(** The candidate loop of the prober never throws; it requests the
    candidates' URLs in registry order, all of them when it falls out of the
    loop; a result it returns is a success carrying a served payload. *)
Lemma lookups_frame : forall tok cid cs s,
  exists r s' evs,
    lookups tok cid cs s = (Returned r, s') /\
    added s s' evs /\ probe_starts evs = [] /\ generated evs = [] /\
    clock s <= clock s' /\
    (exists k, requested evs = firstn k (map (fun c => candidate_url c cid) cs) /\
               (k <= List.length cs)%nat /\ (cs <> [] -> (0 < k)%nat)) /\
    (r = None -> requested evs = map (fun c => candidate_url c cid) cs) /\
    (forall res, r = Some res ->
       exists p c, res = Success p c /\ In c cs /\ served p).
Proof.
  intros tok cid cs; induction cs as [|c rest IH]; intros s.
  - exists None, s, []. cbn [lookup_candidates]. unfold ret.
    repeat split; try reflexivity; try lia.
    + apply added_refl.
    + exists 0%nat. repeat split; [lia | intros H; congruence].
    + intros res H; discriminate.
  - destruct (lookups_cons tok cid c rest s)
      as (s1 & e1 & Hstep & Hadd & Hreq & Hps & Hgen & Hclk).
    destruct (axios_get_io B (candidate_url c cid) tok (world s))
      as [[[e|r] d] w'] eqn:Hio.
    + destruct (IH s1) as (r2 & s2 & e2 & Hrun & Hadd2 & Hps2 & Hgen2 & Hclk2
                           & (k & Hk & Hle & _) & Hnone & Hsome).
      exists r2, s2, (e1 ++ e2). rewrite Hstep.
      split; [exact Hrun|]. split; [eapply added_trans; eassumption|].
      rewrite probe_starts_app, generated_app, requested_app, Hps, Hps2, Hgen, Hgen2, Hreq.
      repeat split; try reflexivity; try lia.
      * exists (S k). cbn. rewrite Hk. repeat split; [| intros _]; lia.
      * intros H. rewrite (Hnone H). reflexivity.
      * intros res H. destruct (Hsome res H) as (p & c' & ? & ? & ?).
        exists p, c'. repeat split; auto. right; assumption.
    + destruct (status r =? 200) eqn:H200.
      * exists (Some (Success (data r) c)), s1, e1.
        split; [exact Hstep|]. split; [exact Hadd|].
        repeat split; auto.
        -- exists 1%nat. cbn. repeat split; [exact Hreq | | intros _]; lia.
        -- intros H; discriminate.
        -- intros res H. injection H as <-. exists (data r), c.
           repeat split; [left; reflexivity|].
           exists (candidate_url c cid), tok, (world s), r, d, w'.
           repeat split; auto. apply Z.eqb_eq; assumption.
      * destruct (IH s1) as (r2 & s2 & e2 & Hrun & Hadd2 & Hps2 & Hgen2 & Hclk2
                             & (k & Hk & Hle & _) & Hnone & Hsome).
        exists r2, s2, (e1 ++ e2). rewrite Hstep.
        split; [exact Hrun|]. split; [eapply added_trans; eassumption|].
        rewrite probe_starts_app, generated_app, requested_app, Hps, Hps2, Hgen, Hgen2, Hreq.
        repeat split; try reflexivity; try lia.
        -- exists (S k). cbn. rewrite Hk. repeat split; [| intros _]; lia.
        -- intros H. rewrite (Hnone H). reflexivity.
        -- intros res H. destruct (Hsome res H) as (p & c' & ? & ? & ?).
           exists p, c'. repeat split; auto. right; assumption.
Qed.

(** If no candidate-scoped lookup answers 200, the candidate loop falls
    through. *)
Lemma lookups_none : forall tok cid cs s,
  (forall c w, In c cs ->
     match fst (fst (axios_get_io B (candidate_url c cid) tok w)) with
     | inr r => status r <> 200
     | inl _ => True
     end) ->
  fst (lookups tok cid cs s) = Returned None.
Proof.
  intros tok cid cs; induction cs as [|c rest IH]; intros s H.
  - reflexivity.
  - destruct (lookups_cons tok cid c rest s) as (s1 & e1 & Hstep & _).
    specialize (H c (world s) (or_introl eq_refl)) as Hc.
    destruct (axios_get_io B (candidate_url c cid) tok (world s))
      as [[[e|r] d] w'] eqn:Hio; cbn [fst] in Hc.
    + rewrite Hstep. apply IH. intros c' w Hin. apply H. right; assumption.
    + apply Z.eqb_neq in Hc. rewrite Hc in Hstep.
      rewrite Hstep. apply IH. intros c' w Hin. apply H. right; assumption.
Qed.

(** The generic lookup: one request, for the unscoped URL; it never
    throws. *)
Lemma direct_frame : forall tok cid s,
  exists r s' evs,
    direct tok cid s = (Returned r, s') /\
    added s s' evs /\ probe_starts evs = [] /\ generated evs = [] /\
    clock s <= clock s' /\ requested evs = [operationsUrl cid] /\
    match fst (fst (axios_get_io B (operationsUrl cid) tok (world s))) with
    | inr a => if status a =? 200
               then r = Some (Success (data a) "operations-api")
               else r = None
    | inl _ => r = None
    end /\
    (forall res, r = Some res -> exists p, res = Success p "operations-api" /\ served p).
Proof.
  intros tok cid s. unfold lookup_direct. run.
  destruct (axios_get_io B (operationsUrl cid) tok (world s)) as [[[e|a] d] w'] eqn:Hio.
  - eexists; eexists; eexists; (split; [reflexivity|]).
    split; [unfold added; cbn [trace]; rewrite <- ?app_assoc; reflexivity|].
    cbn. repeat split; try reflexivity; try lia. intros res H; discriminate.
  - destruct (status a =? 200) eqn:H200.
    + eexists; eexists; eexists; (split; [reflexivity|]).
      split; [unfold added; cbn [trace]; rewrite <- ?app_assoc; reflexivity|].
      cbn. rewrite H200. repeat split; try reflexivity; try lia.
      intros res H. injection H as <-. eexists; split; [reflexivity|].
      exists (operationsUrl cid), tok, (world s), a, d, w'.
      repeat split; auto. apply Z.eqb_eq; assumption.
    + eexists; eexists; eexists; (split; [reflexivity|]).
      split; [unfold added; cbn [trace]; rewrite <- ?app_assoc; reflexivity|].
      cbn. rewrite H200. repeat split; try reflexivity; try lia.
      intros res H; discriminate.
Qed.

Lemma probe_token_ok : forall id s tok d w',
  getAccessToken_io B (world s) = (inr tok, d, w') ->
  probe id s =
  match lookups tok (cleanOperationId_of id) modelEndpoints (after_token s d w') with
  | (Returned (Some res), s1) => (Returned res, s1)
  | (Returned None, s1) =>
      match direct tok (cleanOperationId_of id) s1 with
      | (Returned (Some res), s2) => (Returned res, s2)
      | (Returned None, s2) => (Returned (Failure all_404_reason), s2)
      | (Threw e, s2) =>
          (Returned (Failure ("Status check failed: " ++ message e)%string), s2)
      end
  | (Threw e, s1) =>
      (Returned (Failure ("Status check failed: " ++ message e)%string), s1)
  end.
Proof.
  intros id s tok d w' Htok.
  unfold checkOperationStatusComprehensive, getAccessToken, after_token.
  cbv [bind try_catch ret throw emit console io now]. cbn [fst snd world clock trace].
  rewrite Htok.
  destruct (lookups tok (cleanOperationId_of id) modelEndpoints _) as [[e|[res|]] s1];
    try reflexivity.
  destruct (direct tok (cleanOperationId_of id) s1) as [[e|[res|]] s2]; reflexivity.
Qed.

Lemma probe_token_fails : forall id s e d w',
  getAccessToken_io B (world s) = (inl e, d, w') ->
  probe id s =
  (Returned (Failure ("Status check failed: " ++ message e)%string),
   mk_state w' (clock s + Z.of_N d)
     (trace s ++ [(clock s, EvGetAccessToken);
                  (clock s + Z.of_N d, EvConsole (LogAuthError (message e)))])).
Proof.
  intros id s e d w' Htok.
  unfold checkOperationStatusComprehensive, getAccessToken.
  cbv [bind try_catch ret throw emit console io now]. cbn [fst snd world clock trace].
  rewrite Htok. cbn [fst snd world clock trace]. rewrite <- app_assoc. reflexivity.
Qed.

(** The prober never throws.  It starts with the token request, at the
    time of the call, and asks for no other token; it requests a non-empty
    initial segment of the candidates' URLs followed by the generic URL,
    or nothing when no token was to be had; a success carries a served
    payload. *)
Lemma probe_frame : forall id s,
  exists res s' evs,
    probe id s = (Returned res, s') /\
    added s s' evs /\ probe_starts evs = [clock s] /\ generated evs = [] /\
    clock s <= clock s' /\
    (forall p e, res = Success p e -> served p) /\
    match fst (fst (getAccessToken_io B (world s))) with
    | inl e => res = Failure ("Status check failed: " ++ message e)%string /\
               requested evs = []
    | inr _ =>
        exists k, (0 < k)%nat /\
          requested evs =
          firstn k (map (fun c => candidate_url c (cleanOperationId_of id)) modelEndpoints
                    ++ [operationsUrl (cleanOperationId_of id)])
    end.
Proof.
  intros id s.
  destruct (getAccessToken_io B (world s)) as [[[e|tok] d] w'] eqn:Htok.
  - rewrite (probe_token_fails id s e d w' Htok).
    eexists; eexists; eexists; split; [reflexivity|].
    split; [unfold added; cbn [trace]; reflexivity|].
    cbn. repeat split; try reflexivity; try lia. intros p e0 H; discriminate.
  - rewrite (probe_token_ok id s tok d w' Htok). cbn [fst].
    set (cid := cleanOperationId_of id).
    destruct (lookups_frame tok cid modelEndpoints (after_token s d w'))
      as (r1 & s1 & e1 & Hrun1 & Hadd1 & Hps1 & Hgen1 & Hclk1
          & (k & Hk & Hle & Hpos) & Hnone1 & Hsome1).
    rewrite Hrun1.
    assert (Hadd0 : added s (after_token s d w') [(clock s, EvGetAccessToken)])
      by reflexivity.
    assert (Hclk0 : clock s <= clock (after_token s d w')) by (cbn; lia).
    destruct r1 as [res|].
    + destruct (Hsome1 res eq_refl) as (p & c & -> & Hin & Hserved).
      exists (Success p c), s1, ([(clock s, EvGetAccessToken)] ++ e1).
      split; [reflexivity|]. split; [eapply added_trans; eassumption|].
      rewrite probe_starts_app, generated_app, requested_app, Hps1, Hgen1.
      repeat split; try reflexivity; try lia.
      * intros p0 e0 H. injection H as <- <-. exact Hserved.
      * exists k. split.
        -- apply Hpos. intros E. rewrite E in Hin. destruct Hin.
        -- cbn [requested app]. rewrite Hk, firstn_app, length_map.
           replace (k - List.length modelEndpoints)%nat with 0%nat by lia.
           rewrite firstn_O, app_nil_r. reflexivity.
    + destruct (direct_frame tok cid s1)
        as (r2 & s2 & e2 & Hrun2 & Hadd2 & Hps2 & Hgen2 & Hclk2 & Hreq2 & _ & Hsome2).
      rewrite Hrun2.
      assert (Hall : added s s2 ([(clock s, EvGetAccessToken)] ++ e1 ++ e2)).
      { eapply added_trans; [eassumption|]. eapply added_trans; eassumption. }
      assert (Hk' : exists k0, (0 < k0)%nat /\
                requested ([(clock s, EvGetAccessToken)] ++ e1 ++ e2) =
                firstn k0 (map (fun c => candidate_url c cid) modelEndpoints
                           ++ [operationsUrl cid])).
      { exists (S (List.length modelEndpoints)). split; [lia|].
        rewrite !requested_app, (Hnone1 eq_refl), Hreq2. cbn [requested app].
        rewrite firstn_all2; [reflexivity|]. rewrite length_app, length_map. cbn. lia. }
      destruct r2 as [res|].
      * destruct (Hsome2 res eq_refl) as (p & -> & Hserved).
        eexists; eexists; eexists; split; [reflexivity|]. split; [exact Hall|].
        rewrite !probe_starts_app, !generated_app, Hps1, Hgen1, Hps2, Hgen2.
        repeat split; try reflexivity; try lia; [|exact Hk'].
        intros p0 e0 H. injection H as <- <-. exact Hserved.
      * eexists; eexists; eexists; split; [reflexivity|]. split; [exact Hall|].
        rewrite !probe_starts_app, !generated_app, Hps1, Hgen1, Hps2, Hgen2.
        repeat split; try reflexivity; try lia; [|exact Hk'].
        intros p0 e0 H; discriminate.
Qed.

Lemma added_say : forall (s s' : state) evs l,
  added s s' evs -> added s (say s' l) (evs ++ [(clock s', EvConsole l)]).
Proof.
  unfold added, say; intros s s' evs l H; cbn [trace].
  rewrite H, app_assoc; reflexivity.
Qed.

(** One pass of the polling loop, read off the result of its probe. *)
Lemma tick_of_probe : forall id model s res s1,
  probe id s = (Returned res, s1) ->
  tick id model s =
  match res with
  | Failure reason => (Returned None, say s1 (LogStatusCheckFailed reason))
  | Success p endpoint =>
      let s2 := say s1 (LogStatus endpoint p) in
      if done p then
        match response p with
        | None =>
            (Returned None,
             say s2 (LogStatusCheckError
                       (message (TypeError_undefined "raiMediaFilteredCount"))))
        | Some r =>
            if filtered r then
              (Returned (Some reply_filtered),
               say s2 (LogContentFiltered
                         (match raiMediaFilteredCount r with
                          | Some n => n | None => 0 end)))
            else if negb (truthy (first_gcsUri r)) then
              (Returned (Some reply_no_video), say s2 LogNoVideo)
            else
              let videoUri :=
                match first_gcsUri r with Some u => u | None => ""%string end in
              (Returned (Some (reply_success videoUri id endpoint model)),
               say s2 (LogVideoCompleted videoUri))
        end
      else (Returned None, s2)
  end.
Proof.
  intros id model s res s1 Hp. unfold poll_tick.
  cbv [bind try_catch ret throw emit console]. rewrite Hp.
  destruct res as [p endpoint|reason]; [|reflexivity].
  cbn [fst snd world clock trace]. cbv zeta.
  destruct (done p); [|reflexivity].
  destruct (response p) as [r|]; [|reflexivity].
  destruct (filtered r); [reflexivity|].
  destruct (negb (truthy (first_gcsUri r))); reflexivity.
Qed.

(** A pass never throws, starts exactly one probe, at the time the pass
    begins, and answers 200, 400 or 500 if it answers. *)
Lemma tick_frame : forall id model s,
  exists r s' evs,
    tick id model s = (Returned r, s') /\
    added s s' evs /\ probe_starts evs = [clock s] /\ generated evs = [] /\
    clock s <= clock s' /\
    (forall a, r = Some a -> In (reply_status a) [200; 400; 500]).
Proof.
  intros id model s.
  destruct (probe_frame id s)
    as (res & s1 & evs & Hp & Hadd & Hps & Hgen & Hclk & _ & _).
  rewrite (tick_of_probe id model s res s1 Hp).
  assert (Hsay : forall l, probe_starts (evs ++ [(clock s1, EvConsole l)]) = [clock s]
                           /\ generated (evs ++ [(clock s1, EvConsole l)]) = []).
  { intros l. rewrite probe_starts_app, generated_app, Hps, Hgen. split; reflexivity. }
  assert (Hsay2 : forall l l',
             probe_starts ((evs ++ [(clock s1, EvConsole l)])
                           ++ [(clock s1, EvConsole l')]) = [clock s]
             /\ generated ((evs ++ [(clock s1, EvConsole l)])
                           ++ [(clock s1, EvConsole l')]) = []).
  { intros l l'. rewrite !probe_starts_app, !generated_app, Hps, Hgen. split; reflexivity. }
  destruct res as [p endpoint|reason].
  - cbv zeta. destruct (done p).
    + destruct (response p) as [r|].
      * destruct (filtered r); [|destruct (negb (truthy (first_gcsUri r)))];
          (eexists; eexists; eexists; split; [reflexivity|];
           split; [apply (added_say s (say s1 _)); apply added_say; exact Hadd|];
           cbn [say clock];
           repeat split; try apply Hsay2; try assumption;
           intros a H; injection H as <-; cbn; tauto).
      * eexists; eexists; eexists; split; [reflexivity|].
        split; [apply (added_say s (say s1 _)); apply added_say; exact Hadd|].
        cbn [say clock]. repeat split; try apply Hsay2; try assumption.
        intros a H; discriminate.
    + eexists; eexists; eexists; split; [reflexivity|].
      split; [apply added_say; exact Hadd|].
      cbn [say clock]. repeat split; try apply Hsay; try assumption.
      intros a H; discriminate.
  - eexists; eexists; eexists; split; [reflexivity|].
    split; [apply added_say; exact Hadd|].
    cbn [say clock]. repeat split; try apply Hsay; try assumption.
    intros a H; discriminate.
Qed.

Lemma sleep_frame : forall ms s,
  exists s', sleep B ms s = (Returned tt, s') /\
             added s s' [(clock s, EvSleep ms)] /\ clock s + ms <= clock s'.
Proof.
  intros ms s. unfold sleep. cbv [bind emit]. cbn [fst snd world clock trace].
  destruct (setTimeout_io B ms (world s)) as [late w'].
  eexists; split; [reflexivity|]. split; [reflexivity|]. cbn. lia.
Qed.

(** One evaluation of the loop condition and what follows it. *)
Lemma loop_step : forall fuel id model start s,
  loop (S fuel) id model start s =
  if clock s - start <? maxWaitSeconds * 1000 then
    match tick id model s with
    | (Returned (Some a), s1) => (Returned (Some a), s1)
    | (Returned None, s1) => loop fuel id model start (snd (sleep B 30000 s1))
    | (Threw e, s1) => (Threw e, s1)
    end
  else (Returned (Some (reply_timed_out id model)), say s (LogTimedOut id)).
Proof.
  intros fuel id model start s. cbn [poll_loop].
  unfold bind at 1. unfold now at 1.
  destruct (clock s - start <? maxWaitSeconds * 1000); [|reflexivity].
  unfold bind at 1.
  destruct (tick id model s) as [[e|[a|]] s1]; try reflexivity.
  unfold bind at 1.
  destruct (sleep_frame 30000 s1) as (s' & Hs & _). rewrite Hs. reflexivity.
Qed.

(** The loop never throws.  Every probe it starts, it starts before the
    ceiling; when it answers 504, with the timed-out body, the ceiling has
    been reached. *)
Lemma loop_frame : forall fuel id model start s,
  exists r s' evs,
    loop fuel id model start s = (Returned r, s') /\
    added s s' evs /\
    Forall (fun t => t - start < maxWaitSeconds * 1000) (probe_starts evs) /\
    generated evs = [] /\ clock s <= clock s' /\
    (forall a, r = Some a -> reply_status a = 504 ->
       a = reply_timed_out id model /\ maxWaitSeconds * 1000 <= clock s' - start) /\
    (forall a, r = Some a -> In (reply_status a) [200; 400; 500; 504]).
Proof.
  induction fuel as [|fuel IH]; intros id model start s.
  - exists None, s, []. cbn [poll_loop]. unfold ret.
    split; [reflexivity|]. split; [apply added_refl|]. split; [constructor|].
    split; [reflexivity|]. split; [lia|]. split; intros a H; discriminate.
  - rewrite loop_step.
    destruct (clock s - start <? maxWaitSeconds * 1000) eqn:Hlt.
    + apply Z.ltb_lt in Hlt.
      destruct (tick_frame id model s)
        as (r & s1 & e1 & Ht & Hadd1 & Hps1 & Hgen1 & Hclk1 & Hne).
      rewrite Ht. destruct r as [a|].
      * exists (Some a), s1, e1. split; [reflexivity|]. split; [exact Hadd1|].
        split; [rewrite Hps1; repeat constructor; exact Hlt|].
        split; [exact Hgen1|]. split; [exact Hclk1|].
        split.
        -- intros a0 H H504. injection H as <-. specialize (Hne a eq_refl).
           rewrite H504 in Hne. cbn in Hne.
           repeat (destruct Hne as [Hne|Hne]; [discriminate|]). destruct Hne.
        -- intros a0 H. injection H as <-. specialize (Hne a eq_refl).
           cbn in Hne |- *. tauto.
      * destruct (sleep_frame 30000 s1) as (s2 & Hs & Hadd2 & Hclk2).
        rewrite Hs. cbn [snd].
        destruct (IH id model start s2)
          as (r3 & s3 & e3 & Hl & Hadd3 & Hps3 & Hgen3 & Hclk3 & Hto & Hst).
        exists r3, s3, (e1 ++ [(clock s1, EvSleep 30000)] ++ e3).
        split; [exact Hl|].
        split; [eapply added_trans; [eassumption|]; eapply added_trans; eassumption|].
        rewrite !probe_starts_app, !generated_app, Hps1, Hgen1, Hgen3.
        split; [cbn; constructor; assumption|].
        split; [reflexivity|]. split; [lia|]. split; [exact Hto | exact Hst].
    + apply Z.ltb_ge in Hlt.
      exists (Some (reply_timed_out id model)), (say s (LogTimedOut id)),
             [(clock s, EvConsole (LogTimedOut id))].
      split; [reflexivity|]. split; [reflexivity|].
      split; [constructor|]. split; [reflexivity|]. split; [cbn; lia|].
      split.
      * intros a H _. injection H as <-. split; [reflexivity | cbn [say clock]; lia].
      * intros a H. injection H as <-. cbn. tauto.
Qed.

(** 480 passes fill the four hours: counted from a clock that is not
    behind [start], [max_checks] evaluations of the condition always reach
    a reply. *)
Lemma loop_enough_fuel : forall n id model start s,
  maxWaitSeconds * 1000 - (clock s - start) <= 30000 * Z.of_nat n ->
  exists a s', loop (S n) id model start s = (Returned (Some a), s').
Proof.
  induction n as [|n IH]; intros id model start s Hn; rewrite loop_step.
  - destruct (clock s - start <? maxWaitSeconds * 1000) eqn:Hlt.
    + apply Z.ltb_lt in Hlt. lia.
    + eexists; eexists; reflexivity.
  - destruct (clock s - start <? maxWaitSeconds * 1000) eqn:Hlt.
    + destruct (tick_frame id model s)
        as (r & s1 & e1 & Ht & _ & _ & _ & Hclk1 & _).
      rewrite Ht. destruct r as [a|].
      * eexists; eexists; reflexivity.
      * destruct (sleep_frame 30000 s1) as (s2 & Hs & _ & Hclk2).
        rewrite Hs. cbn [snd]. apply IH. lia.
    + eexists; eexists; reflexivity.
Qed.

(** If no pass ever produces a reply, the only reply of the loop is the
    timed-out one. *)
Lemma loop_all_continue : forall id model start,
  (forall s, fst (tick id model s) = Returned None) ->
  forall fuel s a s',
    loop fuel id model start s = (Returned (Some a), s') ->
    a = reply_timed_out id model.
Proof.
  intros id model start Hall. induction fuel as [|fuel IH]; intros s a s' H.
  - discriminate.
  - rewrite loop_step in H.
    destruct (clock s - start <? maxWaitSeconds * 1000).
    + specialize (Hall s). destruct (tick id model s) as [[e|[r|]] s1];
        cbn [fst] in Hall; try discriminate.
      eapply IH; eassumption.
    + injection H as <- _. reflexivity.
Qed.

(** ** Submission *)

Notation "'submit_over'" := (submit_loop B modelEndpoints).
Notation "'is_last'" := (is_last_endpoint modelEndpoints).

(** One submission attempt. *)
Lemma submit_loop_cons : forall rq c rest s,
  exists s1 evs,
    match fst (fst (generateContent_io B c rq (world s))) with
    | inr op => submit_over rq (c :: rest) s = (Returned (Some (op, c)), s1)
    | inl _ =>
        if is_last c
        then submit_over rq (c :: rest) s = (Threw all_failed, s1)
        else submit_over rq (c :: rest) s = submit_over rq rest s1
    end /\
    added s s1 evs /\ generated evs = [c] /\ polling evs = [] /\
    clock s <= clock s1.
Proof.
  intros rq c rest s. cbn [submit_loop].
  cbv [bind try_catch ret throw emit console io]. cbn [fst snd world clock trace].
  destruct (generateContent_io B c rq (world s)) as [[[e|op] d] w'].
  - cbn [fst]. destruct (is_last c);
      eexists; eexists; (split; [reflexivity|]);
      (split; [unfold added; cbn [trace]; rewrite <- ?app_assoc; reflexivity|]);
      cbn; repeat split; try reflexivity; lia.
  - cbn [fst]. eexists; eexists; (split; [reflexivity|]);
      (split; [unfold added; cbn [trace]; rewrite <- ?app_assoc; reflexivity|]);
      cbn; repeat split; try reflexivity; lia.
Qed.

(** The last element of a list lies in any non-empty tail of it. *)
Lemma pop_app_cons : forall pre c post,
  exists l, pop (pre ++ c :: post) = Some l /\ In l (c :: post).
Proof.
  intros pre c post.
  destruct (@exists_last _ (c :: post)) as (l' & x & E); [discriminate|].
  exists x. rewrite E, app_assoc, pop_snoc. split; [reflexivity|].
  apply in_or_app. right. left. reflexivity.
Qed.

Lemma NoDup_app_disjoint : forall (a b : list string) x,
  NoDup (a ++ b) -> In x a -> In x b -> False.
Proof.
  induction a as [|y a IH]; intros b x Hnd Ha Hb; [destruct Ha|].
  cbn in Hnd. inversion Hnd as [|? ? Hnot Hnd']; subst.
  destruct Ha as [->|Ha].
  - apply Hnot. apply in_or_app. right. assumption.
  - exact (IH b x Hnd' Ha Hb).
Qed.

(** In a duplicate-free registry only the last candidate equals
    `modelEndpoints[modelEndpoints.length - 1]`. *)
Lemma is_last_false_before : forall pre c post x,
  modelEndpoints = pre ++ c :: post -> NoDup modelEndpoints ->
  In x pre -> is_last x = false.
Proof.
  intros pre c post x E Hnd Hin. unfold is_last_endpoint.
  destruct (pop_app_cons pre c post) as (l & Hl & Hin'). rewrite E, Hl.
  apply String.eqb_neq. intros ->.
  rewrite E in Hnd. exact (NoDup_app_disjoint _ _ _ Hnd Hin Hin').
Qed.

(** The submission loop up to the first candidate that accepts. *)
Lemma submit_loop_first_success : forall rq c op post pre s,
  (forall x, In x pre ->
     is_last x = false /\
     forall w, exists e, fst (fst (generateContent_io B x rq w)) = inl e) ->
  (forall w, fst (fst (generateContent_io B c rq w)) = inr op) ->
  exists s' evs,
    submit_over rq (pre ++ c :: post) s = (Returned (Some (op, c)), s') /\
    added s s' evs /\ generated evs = pre ++ [c] /\ polling evs = [] /\
    clock s <= clock s'.
Proof.
  intros rq c op post pre; induction pre as [|x pre IH]; intros s Hpre Hc.
  - cbn [app].
    destruct (submit_loop_cons rq c post s) as (s1 & evs & Hstep & H).
    rewrite Hc in Hstep. exists s1, evs. split; assumption.
  - cbn [app].
    destruct (submit_loop_cons rq x (pre ++ c :: post) s)
      as (s1 & e1 & Hstep & Hadd1 & Hgen1 & Hpol1 & Hclk1).
    destruct (Hpre x (or_introl eq_refl)) as (Hlast & Hfail).
    destruct (Hfail (world s)) as (e & He). rewrite He, Hlast in Hstep.
    destruct (IH s1) as (s' & e2 & Hrun & Hadd2 & Hgen2 & Hpol2 & Hclk2);
      [intros y Hy; apply Hpre; right; assumption | assumption |].
    exists s', (e1 ++ e2). rewrite Hstep. split; [exact Hrun|].
    split; [eapply added_trans; eassumption|].
    unfold polling in *. rewrite generated_app, filter_app, Hgen1, Hgen2, Hpol1, Hpol2.
    repeat split; try reflexivity; lia.
Qed.

(** The submission loop when no candidate accepts: it throws at the
    first candidate that equals the last one. *)
Lemma submit_loop_all_fail : forall rq cs pre s,
  modelEndpoints = pre ++ cs -> cs <> [] ->
  (forall c w, In c cs -> exists e, fst (fst (generateContent_io B c rq w)) = inl e) ->
  exists s' evs rest,
    submit_over rq cs s = (Threw all_failed, s') /\
    added s s' evs /\ cs = generated evs ++ rest /\ polling evs = [].
Proof.
  intros rq cs; induction cs as [|c cs IH]; intros pre s E Hne Hfail; [congruence|].
  destruct (submit_loop_cons rq c cs s)
    as (s1 & e1 & Hstep & Hadd1 & Hgen1 & Hpol1 & Hclk1).
  destruct (Hfail c (world s) (or_introl eq_refl)) as (e & He). rewrite He in Hstep.
  destruct (is_last c) eqn:Hlast.
  - exists s1, e1, cs. rewrite Hgen1. repeat split; assumption.
  - destruct cs as [|c' cs'].
    + exfalso. unfold is_last_endpoint in Hlast.
      rewrite E, pop_snoc, String.eqb_refl in Hlast. discriminate.
    + destruct (IH (pre ++ [c]) s1) as (s' & e2 & rest & Hrun & Hadd2 & Hgen2 & Hpol2).
      * rewrite <- app_assoc. exact E.
      * discriminate.
      * intros y w Hy. apply Hfail. right; assumption.
      * exists s', (e1 ++ e2), rest. rewrite Hstep. split; [exact Hrun|].
        split; [eapply added_trans; eassumption|].
        unfold polling in *. rewrite generated_app, filter_app, Hgen1, Hpol1, Hpol2.
        cbn [app]. rewrite <- Hgen2. split; reflexivity.
Qed.

(** Whatever the backend does, the only error the submission loop throws
    is the fresh `Error` of its `catch` block, and the loop has no polling
    effect. *)
Lemma submit_loop_frame : forall rq cs s,
  exists r s' evs,
    submit_over rq cs s = (r, s') /\ added s s' evs /\ polling evs = [] /\
    clock s <= clock s' /\
    (forall e, r = Threw e -> e = all_failed).
Proof.
  intros rq cs; induction cs as [|c cs IH]; intros s.
  - exists (Returned None), s, []. cbn [submit_loop]. unfold ret.
    split; [reflexivity|]. split; [apply added_refl|]. split; [reflexivity|].
    split; [lia|]. intros e H; discriminate.
  - destruct (submit_loop_cons rq c cs s)
      as (s1 & e1 & Hstep & Hadd1 & Hgen1 & Hpol1 & Hclk1).
    destruct (fst (fst (generateContent_io B c rq (world s)))) as [e|op].
    + destruct (is_last c).
      * exists (Threw all_failed), s1, e1. repeat split; try assumption.
        intros e0 H; injection H as <-; reflexivity.
      * destruct (IH s1) as (r & s' & e2 & Hrun & Hadd2 & Hpol2 & Hclk2 & Hthrow).
        exists r, s', (e1 ++ e2). rewrite Hstep. split; [exact Hrun|].
        split; [eapply added_trans; eassumption|].
        unfold polling in *. rewrite filter_app, Hpol1, Hpol2.
        repeat split; try reflexivity; try lia. exact Hthrow.
    + exists (Returned (Some (op, c))), s1, e1. repeat split; try assumption.
      intros e0 H; discriminate.
Qed.

(** ** The handler *)

Notation "'handler'" := (generate_video B modelEndpoints).
Notation "'submission'" := (submit B modelEndpoints).

Lemma submit_of_loop : forall rq s,
  submission rq s =
  match submit_over rq modelEndpoints s with
  | (Returned (Some (op, c)), s1) =>
      (Returned (last_segment (name op), c),
       say s1 (LogOperationId (last_segment (name op)) c))
  | (Returned None, s1) => (Threw (TypeError_undefined "name"), s1)
  | (Threw e, s1) => (Threw e, s1)
  end.
Proof.
  intros rq s. unfold submit. unfold bind at 1.
  destruct (submit_over rq modelEndpoints s) as [[e|[[op c]|]] s1]; reflexivity.
Qed.

(** The submission stage has no polling effect and throws only errors
    without a `code`. *)
Lemma submit_frame : forall rq s,
  exists r s' evs,
    submission rq s = (r, s') /\ added s s' evs /\ polling evs = [] /\
    clock s <= clock s' /\
    (forall e, r = Threw e -> code e = None).
Proof.
  intros rq s. rewrite submit_of_loop.
  destruct (submit_loop_frame rq modelEndpoints s)
    as (r & s1 & evs & Hrun & Hadd & Hpol & Hclk & Hthrow).
  rewrite Hrun. destruct r as [e|[[op c]|]].
  - exists (Threw e), s1, evs. repeat split; try assumption.
    intros e0 H; injection H as <-. rewrite (Hthrow e eq_refl). reflexivity.
  - eexists; eexists; eexists; split; [reflexivity|].
    split; [apply added_say; exact Hadd|].
    unfold polling in *. rewrite filter_app, Hpol.
    repeat split; try assumption. intros e H; discriminate.
  - exists (Threw (TypeError_undefined "name")), s1, evs. repeat split; try assumption.
    intros e0 H; injection H as <-. reflexivity.
Qed.

(** The handler on a request that carries a prompt, read off the result
    of the submission stage. *)
Lemma handler_of_submit : forall fuel body s,
  truthy (prompt body) = true ->
  handler fuel body s =
  match submission (build_request body) (say s (LogReceived body)) with
  | (Returned (id, model), s1) => loop fuel id model (clock s1) s1
  | (Threw e, s1) =>
      (Returned (Some (if match code e with Some c => c =? 429 | None => false end
                       then reply_quota (message e)
                       else reply_internal_error (message e))),
       say s1 (LogHandlerError (message e)))
  end.
Proof.
  intros fuel body s Hp. unfold generate_video.
  cbv [try_catch]. unfold bind at 1. unfold console at 1, emit at 1.
  rewrite Hp. cbn [negb]. cbv zeta. unfold bind at 1. fold (say s (LogReceived body)).
  destruct (submission (build_request body) (say s (LogReceived body)))
    as [[e|[id model]] s1].
  - cbv [bind console emit ret]. cbn [fst snd world clock trace].
    destruct (match code e with Some c => c =? 429 | None => false end); reflexivity.
  - unfold bind at 1, now at 1.
    destruct (loop_frame fuel id model (clock s1) s1) as (r & s' & evs & Hl & _).
    rewrite Hl. reflexivity.
Qed.

(** No path of the handler answers 429: an error thrown by a submission
    attempt is replaced, in the `catch` of the submission loop, by a fresh
    `Error` without a `code`. *)
Lemma handler_never_429 : forall fuel body s,
  exists r s', handler fuel body s = (Returned r, s') /\
               (forall a, r = Some a -> reply_status a <> 429).
Proof.
  intros fuel body s. destruct (truthy (prompt body)) eqn:Hp.
  - rewrite (handler_of_submit fuel body s Hp).
    destruct (submit_frame (build_request body) (say s (LogReceived body)))
      as (r & s1 & evs & Hrun & _ & _ & _ & Hthrow).
    rewrite Hrun. destruct r as [e|[id model]].
    + rewrite (Hthrow e eq_refl). eexists; eexists; split; [reflexivity|].
      intros a H; injection H as <-. cbn. lia.
    + destruct (loop_frame fuel id model (clock s1) s1)
        as (r & s' & evs' & Hl & _ & _ & _ & _ & _ & Hst).
      rewrite Hl. exists r, s'. split; [reflexivity|].
      intros a H E. specialize (Hst a H). rewrite E in Hst. cbn in Hst.
      repeat (destruct Hst as [Hst|Hst]; [discriminate|]). destruct Hst.
  - unfold generate_video. cbv [try_catch bind console emit ret].
    rewrite Hp. cbn [negb]. eexists; eexists; split; [reflexivity|].
    intros a H; injection H as <-. cbn. lia.
Qed.

(** ** Passes that do not end the loop *)

Lemma tick_continues : forall id model,
  (forall p, served p -> inconclusive p) ->
  forall s, fst (tick id model s) = Returned None.
Proof.
  intros id model Hinc s.
  destruct (probe_frame id s) as (res & s1 & evs & Hp & _ & _ & _ & _ & Hserved & _).
  rewrite (tick_of_probe id model s res s1 Hp).
  destruct res as [p endpoint|reason]; [|reflexivity].
  cbv zeta. destruct (Hinc p (Hserved p endpoint eq_refl)) as [Hd|[Hd Hr]];
    rewrite Hd; [reflexivity|]. rewrite Hr. reflexivity.
Qed.

Lemma max_checks_eq : max_checks = S 480.
Proof. reflexivity. Qed.

(** When no pass produces a reply the loop answers 504, and not before
    the four hours are over. *)
Lemma loop_times_out : forall id model start s,
  (forall s0, fst (tick id model s0) = Returned None) ->
  start <= clock s ->
  exists s' evs,
    loop max_checks id model start s = (Returned (Some (reply_timed_out id model)), s') /\
    added s s' evs /\
    Forall (fun t => t - start < maxWaitSeconds * 1000) (probe_starts evs) /\
    maxWaitSeconds * 1000 <= clock s' - start.
Proof.
  intros id model start s Hall Hstart.
  rewrite max_checks_eq. remember 480%nat as n eqn:Hn.
  destruct (loop_enough_fuel n id model start s) as (a & s' & Hl);
    [unfold maxWaitSeconds; rewrite Hn; lia|].
  pose proof (loop_all_continue id model start Hall _ _ _ _ Hl) as ->.
  destruct (loop_frame (S n) id model start s)
    as (r & s2 & evs & Hl2 & Hadd & Hps & _ & _ & Hto & _).
  rewrite Hl in Hl2. injection Hl2 as <- <-.
  exists s', evs. split; [exact Hl|]. split; [exact Hadd|]. split; [exact Hps|].
  apply (Hto _ eq_refl). reflexivity.
Qed.

(** * The claims *)

(** The registry splits at the first candidate that [accepts]. *)
Lemma first_accepting : forall (accepts : string -> option operation_t) l,
  (exists c, In c l /\ accepts c <> None) ->
  exists pre c op post,
    l = pre ++ c :: post /\ (forall x, In x pre -> accepts x = None) /\
    accepts c = Some op.
Proof.
  intros accepts; induction l as [|a l IH]; intros (c & Hin & Hc); [destruct Hin|].
  destruct (accepts a) as [op|] eqn:Ha.
  - exists [], a, op, l. repeat split; [intros x []| assumption].
  - destruct IH as (pre & c' & op & post & E & Hpre & Hc').
    + destruct Hin as [->|Hin]; [congruence|]. exists c; split; assumption.
    + exists (a :: pre), c', op, post. rewrite E. repeat split; [|assumption].
      intros x [<-|Hx]; [assumption | apply Hpre; assumption].
Qed.

(** C1.  On a duplicate-free registry whose candidates each either accept
    the submission (answering a resource) or refuse it, if some candidate
    accepts, the submission stage returns the first accepting candidate in
    registry order as `modelUsed` and the last `/`-segment of the name it
    answered as `operationId`: the id cannot be cut around a slash, and
    the name is the id alone or some prefix, a slash and the id.  The
    candidates handed to `generateContent` are exactly those before the
    accepting one and itself, so no later candidate is tried. *)
Theorem submit_first_success_wins :
  forall (accepts : string -> option operation_t) rq s,
    NoDup modelEndpoints ->
    (forall c w, In c modelEndpoints ->
       match accepts c with
       | Some op => fst (fst (generateContent_io B c rq w)) = inr op
       | None => exists e, fst (fst (generateContent_io B c rq w)) = inl e
       end) ->
    (exists c, In c modelEndpoints /\ accepts c <> None) ->
    exists pre c op post s' evs,
      modelEndpoints = pre ++ c :: post /\
      (forall x, In x pre -> accepts x = None) /\ accepts c = Some op /\
      submission rq s = (Returned (last_segment (name op), c), s') /\
      (forall a b, last_segment (name op) <> (a ++ "/" ++ b)%string) /\
      (name op = last_segment (name op) \/
       exists prefix, name op = (prefix ++ "/" ++ last_segment (name op))%string) /\
      added s s' evs /\ generated evs = pre ++ [c].
Proof.
  intros accepts rq s Hnd Hacc Hex.
  destruct (first_accepting accepts modelEndpoints Hex)
    as (pre & c & op & post & E & Hpre & Hc).
  assert (Hin : forall x, In x (pre ++ c :: post) -> In x modelEndpoints)
    by (intros x Hx; rewrite E; exact Hx).
  destruct (submit_loop_first_success rq c op post pre s)
    as (s1 & evs & Hrun & Hadd & Hgen & _).
  - intros x Hx. split; [exact (is_last_false_before pre c post x E Hnd Hx)|].
    intros w. specialize (Hacc x w (Hin x (in_or_app _ _ _ (or_introl Hx)))).
    rewrite (Hpre x Hx) in Hacc. exact Hacc.
  - intros w.
    specialize (Hacc c w (Hin c (in_elt c pre post))).
    rewrite Hc in Hacc. exact Hacc.
  - exists pre, c, op, post. eexists; eexists.
    split; [exact E|]. split; [exact Hpre|]. split; [exact Hc|].
    rewrite <- E in Hrun. rewrite submit_of_loop, Hrun. split; [reflexivity|].
    destruct (last_segment_spec (name op)) as [Hno Hshape].
    split; [exact (includes_false_no_slash _ Hno)|]. split; [exact Hshape|].
    split; [apply added_say; exact Hadd|].
    rewrite generated_app, Hgen. cbn. apply app_nil_r.
Qed.

(** C9.  If every candidate refuses the submission, the handler answers
    500 `Internal server error`; nothing of the polling stage happens (no
    token request, no lookup, no wait); the candidates handed to
    `generateContent` are an initial segment of the registry, each tried
    once; and on a non-empty registry the submission stage throws the
    error `All model endpoint variations failed`, which becomes the
    `details` of the reply. *)
Theorem submission_exhausted :
  forall fuel body s,
    truthy (prompt body) = true ->
    (forall c w, In c modelEndpoints ->
       exists e, fst (fst (generateContent_io B c (build_request body) w)) = inl e) ->
    exists details s' evs,
      handler fuel body s = (Returned (Some (reply_internal_error details)), s') /\
      added s s' evs /\ polling evs = [] /\
      (exists rest, modelEndpoints = generated evs ++ rest) /\
      (modelEndpoints <> [] ->
         details = "All model endpoint variations failed"%string /\
         fst (submission (build_request body) (say s (LogReceived body)))
         = Threw all_failed).
Proof.
  intros fuel body s Hp Hfail.
  rewrite (handler_of_submit fuel body s Hp), submit_of_loop.
  set (s0 := say s (LogReceived body)).
  assert (Hadd0 : added s s0 [(clock s, EvConsole (LogReceived body))]) by reflexivity.
  destruct modelEndpoints as [|c0 cs] eqn:E.
  - cbn [submit_loop]. unfold ret. cbn [code TypeError_undefined].
    eexists; eexists; eexists. split; [reflexivity|].
    split; [apply added_say; exact Hadd0|].
    split; [reflexivity|]. split; [exists []; reflexivity|].
    intros H; congruence.
  - rewrite <- E in *.
    destruct (submit_loop_all_fail (build_request body) modelEndpoints [] s0)
      as (s1 & evs & rest & Hrun & Hadd & Hgen & Hpol);
      [reflexivity | congruence | intros c w Hin; apply Hfail; exact Hin |].
    rewrite Hrun. cbn [code all_failed Error message].
    eexists; eexists; eexists. split; [reflexivity|].
    split; [apply added_say; eapply added_trans; eassumption|].
    unfold polling in *. rewrite !filter_app, Hpol. split; [reflexivity|].
    rewrite !generated_app. cbn [generated app]. rewrite app_nil_r.
    split; [exists rest; exact Hgen|].
    intros _. split; reflexivity.
Qed.

(** C3.  Entered at time [clock s] (the `startTime` the handler takes just
    before the loop), the polling loop always reaches a reply within
    [max_checks] evaluations of its condition.  Every probe it starts, it
    starts less than four hours after `startTime`: the condition is
    evaluated before each probe.  If it answers 504 the four hours have
    elapsed; and for a job that never reaches `done` it does answer 504,
    with the timed-out body. *)
Theorem deadline_checked_before_each_probe :
  forall id model s,
    exists a s' evs,
      loop max_checks id model (clock s) s = (Returned (Some a), s') /\
      added s s' evs /\
      Forall (fun t => t - clock s < 4 * 60 * 60 * 1000) (probe_starts evs) /\
      (reply_status a = 504 ->
         a = reply_timed_out id model /\ 4 * 60 * 60 * 1000 <= clock s' - clock s) /\
      (never_done ->
         a = reply_timed_out id model /\ 4 * 60 * 60 * 1000 <= clock s' - clock s).
Proof.
  intros id model s.
  change (4 * 60 * 60 * 1000) with (maxWaitSeconds * 1000).
  pose proof max_checks_eq as Hm. remember 480%nat as n eqn:Hn. rewrite Hm.
  destruct (loop_enough_fuel n id model (clock s) s) as (a & s' & Hl);
    [unfold maxWaitSeconds; rewrite Hn; lia|].
  destruct (loop_frame (S n) id model (clock s) s)
    as (r & s2 & evs & Hl2 & Hadd & Hps & _ & _ & Hto & _).
  rewrite Hl in Hl2. injection Hl2 as <- <-.
  exists a, s', evs. split; [exact Hl|]. split; [exact Hadd|]. split; [exact Hps|].
  split; [exact (Hto a eq_refl)|].
  intros Hnever.
  assert (Hall : forall s0, fst (tick id model s0) = Returned None).
  { apply tick_continues. intros p Hp. left. exact (Hnever p Hp). }
  pose proof (loop_all_continue id model (clock s) Hall _ _ _ _ Hl) as Ha.
  split; [exact Ha|]. apply (Hto a eq_refl). rewrite Ha. reflexivity.
Qed.

(** C4.  With the token in hand, if every candidate-scoped lookup is
    answered 404, the prober requests every candidate's URL in registry
    order and then the generic operations URL; and if the generic lookup
    answers 200 the prober returns its payload, tagged `operations-api`. *)
Theorem generic_fallback_after_all_404 :
  forall id s tok,
    fst (fst (getAccessToken_io B (world s))) = inr tok ->
    (forall c w, In c modelEndpoints ->
       exists e,
         fst (fst (axios_get_io B (candidate_url c (cleanOperationId_of id)) tok w))
         = inl e /\ response_status e = Some 404) ->
    exists res s' evs,
      probe id s = (Returned res, s') /\ added s s' evs /\
      requested evs =
        map (fun c => candidate_url c (cleanOperationId_of id)) modelEndpoints
        ++ [operationsUrl (cleanOperationId_of id)] /\
      (res = Failure all_404_reason \/ exists p, res = Success p "operations-api") /\
      (forall payload,
         (forall w, fst (fst (axios_get_io B (operationsUrl (cleanOperationId_of id)) tok w))
                    = inr (mk_axios 200 payload)) ->
         res = Success payload "operations-api").
Proof.
  intros id s tok Htok H404.
  destruct (getAccessToken_io B (world s)) as [[r d] w'] eqn:Hio.
  cbn [fst] in Htok. subst r.
  rewrite (probe_token_ok id s tok d w' Hio).
  set (cid := cleanOperationId_of id) in *.
  assert (Hnone : fst (lookups tok cid modelEndpoints (after_token s d w')) = Returned None).
  { apply lookups_none. intros c w Hin.
    destruct (H404 c w Hin) as (e & -> & _). exact I. }
  destruct (lookups_frame tok cid modelEndpoints (after_token s d w'))
    as (r1 & s1 & e1 & Hrun1 & Hadd1 & _ & _ & _ & _ & Hreq1 & _).
  rewrite Hrun1 in Hnone |- *. cbn [fst] in Hnone. injection Hnone as ->.
  destruct (direct_frame tok cid s1)
    as (r2 & s2 & e2 & Hrun2 & Hadd2 & _ & _ & _ & Hreq2 & Hres2 & Hsome2).
  rewrite Hrun2.
  assert (Hadd : added s s2 ([(clock s, EvGetAccessToken)] ++ e1 ++ e2)).
  { apply (added_trans s (after_token s d w') s2); [reflexivity|].
    eapply added_trans; eassumption. }
  assert (Hreq : requested ([(clock s, EvGetAccessToken)] ++ e1 ++ e2) =
                 map (fun c => candidate_url c cid) modelEndpoints ++ [operationsUrl cid]).
  { rewrite !requested_app, (Hreq1 eq_refl), Hreq2. reflexivity. }
  destruct r2 as [res|].
  - eexists; eexists; eexists. split; [reflexivity|]. split; [exact Hadd|].
    split; [exact Hreq|]. split.
    + right. destruct (Hsome2 res eq_refl) as (p & -> & _). exists p; reflexivity.
    + intros payload H200. rewrite H200 in Hres2.
      cbn in Hres2. injection Hres2 as ->. reflexivity.
  - eexists; eexists; eexists. split; [reflexivity|]. split; [exact Hadd|].
    split; [exact Hreq|]. split; [left; reflexivity|].
    intros payload H200. rewrite H200 in Hres2.
    cbn in Hres2. discriminate.
Qed.

(** C5, as amended.  The prober is given the operation id only.  With
    the token in hand its first lookup goes to the first candidate of the
    registry, and the lookups it makes follow the registry order, whichever
    candidate accepted the submission. *)
Theorem lookups_start_at_registry_head :
  forall id s tok c rest,
    fst (fst (getAccessToken_io B (world s))) = inr tok ->
    modelEndpoints = c :: rest ->
    exists res s' evs more k,
      probe id s = (Returned res, s') /\ added s s' evs /\
      requested evs = candidate_url c (cleanOperationId_of id) :: more /\
      requested evs =
        firstn k (map (fun c => candidate_url c (cleanOperationId_of id)) modelEndpoints
                  ++ [operationsUrl (cleanOperationId_of id)]).
Proof.
  intros id s tok c rest Htok E.
  destruct (probe_frame id s) as (res & s' & evs & Hp & Hadd & _ & _ & _ & _ & Hreq).
  rewrite Htok in Hreq. destruct Hreq as (k & Hk & Hreq).
  destruct k as [|k]; [lia|].
  exists res, s', evs.
  exists (firstn k (map (fun c => candidate_url c (cleanOperationId_of id)) rest
                    ++ [operationsUrl (cleanOperationId_of id)])), (S k).
  split; [exact Hp|]. split; [exact Hadd|]. split; [|exact Hreq].
  rewrite Hreq, E. reflexivity.
Qed.

(** With the token in hand, if no lookup at all answers 200 the prober
    reports the all-404 reason, whatever made the lookups fail. *)
Lemma probe_all_lookups_fail : forall id s tok,
  fst (fst (getAccessToken_io B (world s))) = inr tok ->
  (forall url w,
     match fst (fst (axios_get_io B url tok w)) with
     | inr a => status a <> 200
     | inl _ => True
     end) ->
  fst (probe id s) = Returned (Failure all_404_reason).
Proof.
  intros id s tok Htok Hfail.
  destruct (getAccessToken_io B (world s)) as [[r d] w'] eqn:Hio.
  cbn [fst] in Htok. subst r.
  rewrite (probe_token_ok id s tok d w' Hio).
  set (cid := cleanOperationId_of id).
  pose proof (lookups_none tok cid modelEndpoints (after_token s d w')
                (fun c w _ => Hfail (candidate_url c cid) w)) as Hnone.
  destruct (lookups tok cid modelEndpoints (after_token s d w')) as [r1 s1].
  cbn [fst] in Hnone. subst r1.
  destruct (direct_frame tok cid s1)
    as (r2 & s2 & e2 & Hrun2 & _ & _ & _ & _ & _ & Hres2 & _).
  rewrite Hrun2. specialize (Hfail (operationsUrl cid) (world s1)).
  destruct (fst (fst (axios_get_io B (operationsUrl cid) tok (world s1)))) as [e|a].
  - subst r2. reflexivity.
  - apply Z.eqb_neq in Hfail. rewrite Hfail in Hres2. subst r2. reflexivity.
Qed.

(** C6, as amended.  The prober has two failure reasons.  When the access
    token cannot be obtained it reports `Status check failed: <message>`;
    when the token is there and no lookup answers 200 it reports the
    all-404 reason, whether the lookups were answered 404 or failed in
    transport or authorisation.  The two reasons are never the same
    string. *)
Theorem failure_reasons :
  forall id s,
    match fst (fst (getAccessToken_io B (world s))) with
    | inl e =>
        fst (probe id s)
        = Returned (Failure ("Status check failed: " ++ message e)%string)
    | inr tok =>
        (forall url w,
           match fst (fst (axios_get_io B url tok w)) with
           | inr a => status a <> 200
           | inl _ => True
           end) ->
        fst (probe id s) = Returned (Failure all_404_reason)
    end /\
    forall m, ("Status check failed: " ++ m)%string <> all_404_reason.
Proof.
  intros id s. split.
  - destruct (getAccessToken_io B (world s)) as [[[e|tok] d] w'] eqn:Hio; cbn [fst].
    + rewrite (probe_token_fails id s e d w' Hio). reflexivity.
    + intros Hfail. apply (probe_all_lookups_fail id s tok); [|exact Hfail].
      rewrite Hio. reflexivity.
  - intros m H. unfold all_404_reason in H. cbn in H. discriminate H.
Qed.

(** C8.  A pass whose probe fails produces no reply: it logs the reason
    and, the ceiling not being reached, the loop waits 30 seconds and goes
    on with the next pass.  When every probe fails, the reply is the
    timed-out one, given once the four hours have elapsed. *)
Theorem failed_probe_is_not_terminal :
  forall id model start fuel s reason s1,
    probe id s = (Returned (Failure reason), s1) ->
    tick id model s = (Returned None, say s1 (LogStatusCheckFailed reason)) /\
    (clock s - start < maxWaitSeconds * 1000 ->
       loop (S fuel) id model start s =
       loop fuel id model start
         (snd (sleep B 30000 (say s1 (LogStatusCheckFailed reason))))) /\
    ((forall s0, exists r0, fst (probe id s0) = Returned (Failure r0)) ->
     start <= clock s ->
     exists s',
       loop max_checks id model start s
       = (Returned (Some (reply_timed_out id model)), s') /\
       maxWaitSeconds * 1000 <= clock s' - start).
Proof.
  intros id model start fuel s reason s1 Hp.
  pose proof (tick_of_probe id model s _ _ Hp) as Ht. cbv beta iota in Ht.
  split; [exact Ht|]. split.
  - intros Hlt. rewrite loop_step, Ht.
    apply Z.ltb_lt in Hlt. rewrite Hlt. reflexivity.
  - intros Hall Hstart.
    destruct (loop_times_out id model start s) as (s' & evs & Hl & _ & _ & Hclk);
      [|exact Hstart|exists s'; split; assumption].
    intros s0. destruct (Hall s0) as (r0 & Hr0).
    destruct (probe id s0) as [res s0'] eqn:Hp0. cbn [fst] in Hr0. subst res.
    rewrite (tick_of_probe id model s0 _ _ Hp0). reflexivity.
Qed.

(** A `done` payload that has a `response` is classified at once:
    filtered if the count is positive, whatever videos it lists; else
    empty if the first video has no usable `gcsUri`; else success with
    that locator and the endpoint that resolved the probe. *)
Lemma done_payload_with_response_classified :
  forall id model s p endpoint s1 r,
    probe id s = (Returned (Success p endpoint), s1) ->
    done p = true -> response p = Some r ->
    fst (tick id model s) =
    Returned (Some
      (if filtered r then reply_filtered
       else match first_gcsUri r with
            | Some u => if String.eqb u "" then reply_no_video
                        else reply_success u id endpoint model
            | None => reply_no_video
            end)).
Proof.
  intros id model s p endpoint s1 r Hp Hd Hr.
  rewrite (tick_of_probe id model s _ _ Hp). cbv zeta. rewrite Hd, Hr.
  destruct (filtered r); [reflexivity|].
  unfold truthy. destruct (first_gcsUri r) as [u|]; [|reflexivity].
  destruct (String.eqb u ""); reflexivity.
Qed.

(** C10.  On a `done` payload without a `response` the classification
    throws the `TypeError` of reading `raiMediaFilteredCount`; the `catch`
    of the pass logs it and the pass produces no reply.  A backend whose
    lookups always answer such a payload drives the loop to the timed-out
    reply. *)
Theorem done_without_response_keeps_polling :
  forall id model s p endpoint s1,
    probe id s = (Returned (Success p endpoint), s1) ->
    done p = true -> response p = None ->
    tick id model s =
    (Returned None,
     say (say s1 (LogStatus endpoint p))
         (LogStatusCheckError
            "Cannot read properties of undefined (reading 'raiMediaFilteredCount')")) /\
    ((forall p', served p' -> done p' = true /\ response p' = None) ->
     exists s',
       loop max_checks id model (clock s) s
       = (Returned (Some (reply_timed_out id model)), s') /\
       maxWaitSeconds * 1000 <= clock s' - clock s).
Proof.
  intros id model s p endpoint s1 Hp Hd Hr. split.
  - rewrite (tick_of_probe id model s _ _ Hp). cbv zeta. rewrite Hd, Hr. reflexivity.
  - intros Hall.
    destruct (loop_times_out id model (clock s) s) as (s' & evs & Hl & _ & _ & Hclk);
      [|lia|exists s'; split; assumption].
    apply tick_continues. intros p' Hp'. right. exact (Hall p' Hp').
Qed.

End Proofs.

(** * The claims on concrete scenarios *)

Lemma NoDup_modelEndpoints_src : NoDup modelEndpoints_src.
Proof.
  unfold modelEndpoints_src.
  repeat constructor; cbn; intros H;
    repeat (destruct H as [H|H]; [discriminate H|]); exact H.
Qed.

(** C1 on the scenario: the first candidate refuses, the second accepts
    and is recorded, the third is never tried. *)
Lemma submit_first_success_wins_witness :
  exists pre c op post s' evs,
    modelEndpoints_src = pre ++ c :: post /\
    (forall x, In x pre -> scenario_accepts x = None) /\
    scenario_accepts c = Some op /\
    submit scenario_backend modelEndpoints_src (build_request sunset)
      (start_state scenario_backend O)
    = (Returned (last_segment (name op), c), s') /\
    (forall a b, last_segment (name op) <> (a ++ "/" ++ b)%string) /\
    (name op = last_segment (name op) \/
     exists prefix, name op = (prefix ++ "/" ++ last_segment (name op))%string) /\
    added (start_state scenario_backend O) s' evs /\ generated evs = pre ++ [c].
Proof.
  apply (submit_first_success_wins scenario_backend modelEndpoints_src
           scenario_accepts (build_request sunset) (start_state scenario_backend O)).
  - exact NoDup_modelEndpoints_src.
  - intros c w Hin. cbn.
    destruct (scenario_accepts c); [reflexivity | eexists; reflexivity].
  - exists "veo-3.0-generate-001"%string. split; [cbn; tauto | discriminate].
Defined.

(** C9 on a backend whose candidates all refuse. *)
Lemma submission_exhausted_witness :
  exists details s' evs,
    generate_video quota_backend modelEndpoints_src max_checks sunset
      (start_state quota_backend O)
    = (Returned (Some (reply_internal_error details)), s') /\
    added (start_state quota_backend O) s' evs /\ polling evs = [] /\
    (exists rest, modelEndpoints_src = generated evs ++ rest) /\
    (modelEndpoints_src <> [] ->
       details = "All model endpoint variations failed"%string /\
       fst (submit quota_backend modelEndpoints_src (build_request sunset)
              (say (start_state quota_backend O) (LogReceived sunset)))
       = Threw all_failed).
Proof.
  apply (submission_exhausted quota_backend modelEndpoints_src max_checks sunset
           (start_state quota_backend O)).
  - reflexivity.
  - intros c w _. exists quota_error. reflexivity.
Defined.

Lemma never_done_backend_never_done : never_done never_done_backend.
Proof.
  intros p (url & tok & w & r & d & w' & H & _ & <-).
  cbn in H. injection H as <- _ _. reflexivity.
Qed.

(** C3 on an operation that never completes: the reply is the timed-out
    one, four hours or more after the loop was entered. *)
Lemma deadline_checked_before_each_probe_witness :
  exists s',
    poll_loop never_done_backend modelEndpoints_src max_checks "op42" "veo-3" 0
      (start_state never_done_backend O)
    = (Returned (Some (reply_timed_out "op42" "veo-3")), s') /\
    14400000 <= clock s' - 0.
Proof.
  destruct (deadline_checked_before_each_probe never_done_backend modelEndpoints_src
              "op42" "veo-3" (start_state never_done_backend O))
    as (a & s' & evs & Hl & _ & _ & _ & Hnever).
  destruct (Hnever never_done_backend_never_done) as [Ha Hclk].
  exists s'. split; [rewrite <- Ha; exact Hl | exact Hclk].
Defined.

(** C4 on a backend where only the generic URL knows the operation. *)
Lemma generic_fallback_after_all_404_witness :
  exists s' evs,
    checkOperationStatusComprehensive fallback_backend modelEndpoints_src "op42"
      (start_state fallback_backend O)
    = (Returned (Success (mk_payload false None) "operations-api"), s') /\
    requested evs =
      map (fun c => candidate_url c "op42") modelEndpoints_src ++ [operationsUrl "op42"].
Proof.
  destruct (generic_fallback_after_all_404 fallback_backend modelEndpoints_src
              "op42" (start_state fallback_backend O) "tok")
    as (res & s' & evs & Hp & _ & Hreq & _ & Hres).
  - reflexivity.
  - intros c w Hin. exists not_found. split; [|reflexivity].
    cbn in Hin. destruct Hin as [<-|[<-|[<-|[]]]]; reflexivity.
  - exists s', evs. split; [|exact Hreq].
    rewrite Hp, (Hres (mk_payload false None)); [reflexivity|].
    intros w. reflexivity.
Defined.

(** C5, as amended, on the registry of the source. *)
Lemma lookups_start_at_registry_head_witness :
  exists res s' evs more,
    checkOperationStatusComprehensive scenario_backend modelEndpoints_src "op42"
      (start_state scenario_backend O)
    = (Returned res, s') /\
    requested evs = candidate_url "veo-3" "op42" :: more.
Proof.
  destruct (lookups_start_at_registry_head scenario_backend modelEndpoints_src
              "op42" (start_state scenario_backend O) "tok" "veo-3"
              ["veo-3.0-generate-001"; "video-generation"]%string)
    as (res & s' & evs & more & k & Hp & _ & Hreq & _).
  - reflexivity.
  - reflexivity.
  - exists res, s', evs, more. split; [exact Hp | exact Hreq].
Defined.

(** C5 as stated fails: the operation was accepted by the second
    candidate, `veo-3.0-generate-001`, and the first status lookup goes to
    the URL scoped to `veo-3`. *)
Lemma first_lookup_ignores_submitted_via :
  fst scenario_submit = Returned ("op42", "veo-3.0-generate-001")%string /\
  requested (trace (snd scenario_submit)) = [] /\
  hd_error (requested (trace (snd scenario_first_probe)))
  = Some (candidate_url "veo-3" "op42") /\
  candidate_url "veo-3" "op42" <> candidate_url "veo-3.0-generate-001" "op42".
Proof.
  split; [vm_compute; reflexivity|]. split; [vm_compute; reflexivity|].
  split; [vm_compute; reflexivity|]. vm_compute. discriminate.
Qed.

(** C6, as amended, on a backend whose lookups all fail in transport. *)
Lemma failure_reasons_witness :
  fst (checkOperationStatusComprehensive transport_backend modelEndpoints_src
         "op42" (start_state transport_backend O))
  = Returned (Failure all_404_reason) /\
  forall m, ("Status check failed: " ++ m)%string <> all_404_reason.
Proof.
  destruct (failure_reasons transport_backend modelEndpoints_src "op42"
              (start_state transport_backend O)) as [H1 H2].
  split; [|exact H2]. apply H1. intros url w. exact I.
Defined.

(** C6 as stated fails: a transport error on every lookup and a 404 on
    every lookup are reported with one and the same reason. *)
Lemma transport_error_reported_as_404 :
  fst (checkOperationStatusComprehensive transport_backend modelEndpoints_src
         "op42" (start_state transport_backend O))
  = fst (checkOperationStatusComprehensive unknown_op_backend modelEndpoints_src
           "op42" (start_state unknown_op_backend O)) /\
  fst (checkOperationStatusComprehensive transport_backend modelEndpoints_src
         "op42" (start_state transport_backend O))
  = Returned (Failure all_404_reason) /\
  response_status econnreset = None /\ response_status not_found = Some 404.
Proof.
  repeat split; vm_compute; reflexivity.
Qed.

(** C8 on an operation no URL knows. *)
Lemma failed_probe_is_not_terminal_witness :
  poll_tick unknown_op_backend modelEndpoints_src "op42" "veo-3"
    (start_state unknown_op_backend O)
  = (Returned None, say (snd unknown_op_probe) (LogStatusCheckFailed all_404_reason)) /\
  exists s',
    poll_loop unknown_op_backend modelEndpoints_src max_checks "op42" "veo-3" 0
      (start_state unknown_op_backend O)
    = (Returned (Some (reply_timed_out "op42" "veo-3")), s') /\
    maxWaitSeconds * 1000 <= clock s' - 0.
Proof.
  destruct (failed_probe_is_not_terminal unknown_op_backend modelEndpoints_src
              "op42" "veo-3" 0 O (start_state unknown_op_backend O) all_404_reason
              (snd unknown_op_probe))
    as (Ht & _ & Hall).
  - vm_compute. reflexivity.
  - split; [exact Ht|]. apply Hall.
    + intros s0. exists all_404_reason.
      apply (probe_all_lookups_fail unknown_op_backend modelEndpoints_src "op42" s0 "tok");
        [reflexivity | intros url w; exact I].
    + cbn. lia.
Defined.

(** C10 on an operation that has failed remotely. *)
Lemma done_without_response_keeps_polling_witness :
  fst (poll_tick failed_op_backend modelEndpoints_src "op42" "veo-3"
         (start_state failed_op_backend O))
  = Returned None /\
  exists s',
    poll_loop failed_op_backend modelEndpoints_src max_checks "op42" "veo-3" 0
      (start_state failed_op_backend O)
    = (Returned (Some (reply_timed_out "op42" "veo-3")), s') /\
    maxWaitSeconds * 1000 <= clock s' - 0.
Proof.
  destruct (done_without_response_keeps_polling failed_op_backend modelEndpoints_src
              "op42" "veo-3" (start_state failed_op_backend O)
              (mk_payload true None) "veo-3" (snd failed_op_probe))
    as (Ht & Hall).
  - vm_compute. reflexivity.
  - reflexivity.
  - reflexivity.
  - split; [rewrite Ht; reflexivity|]. apply Hall.
    intros p (url & tok & w & r & d & w' & H & _ & <-).
    cbn in H. injection H as <- _ _. split; reflexivity.
Defined.

(** C2 fails on the code: the operation is accepted, and every lookup
    answers 200 with `done: true` and no `response`.  The payload has no
    usable media locator, yet no pass answers 500 `No video generated`:
    the handler polls until the ceiling and answers 504. *)
Theorem done_without_response_not_classified :
  fst failed_op_probe = Returned (Success (mk_payload true None) "veo-3") /\
  fst failed_op_run = Returned (Some (reply_timed_out "op42" "veo-3")) /\
  fst failed_op_run <> Returned (Some reply_no_video) /\
  14400000 <= clock (snd failed_op_run) /\
  List.length (probe_starts (trace (snd failed_op_run))) = 476%nat.
Proof.
  split; [vm_compute; reflexivity|]. split; [vm_compute; reflexivity|]. split; [vm_compute; discriminate|].
  split; [vm_compute; discriminate|]. vm_compute. reflexivity.
Qed.

(** C7 fails on the code: every submission attempt is refused with a
    quota error carrying `code` 429; the `catch` of the submission loop
    replaces it by a fresh `Error`, and the handler answers 500, not 429. *)
Theorem quota_signal_answered_500 :
  code quota_error = Some 429 /\
  fst quota_run
  = Returned (Some (reply_internal_error "All model endpoint variations failed")) /\
  logged (trace (snd quota_run))
  = [LogReceived sunset;
     LogTesting "veo-3";
     LogSubmitFailed "veo-3" (message quota_error);
     LogTesting "veo-3.0-generate-001";
     LogSubmitFailed "veo-3.0-generate-001" (message quota_error);
     LogTesting "video-generation";
     LogSubmitFailed "video-generation" (message quota_error);
     LogHandlerError "All model endpoint variations failed"].
Proof.
  repeat split; vm_compute; reflexivity.
Qed.

(** Why the registry has to be duplicate-free for C1: the loop takes any
    candidate equal to the last one for the last one.  With the first
    candidate repeated at the end it gives up after the first refusal,
    although the second candidate would accept. *)
Remark repeated_last_candidate_gives_up_early :
  fst (submit scenario_backend ["veo-3"; "veo-3.0-generate-001"; "veo-3"]%string
         (build_request sunset) (start_state scenario_backend O))
  = Threw all_failed /\
  generated (trace (snd (submit scenario_backend
                           ["veo-3"; "veo-3.0-generate-001"; "veo-3"]%string
                           (build_request sunset) (start_state scenario_backend O))))
  = ["veo-3"%string].
Proof. split; vm_compute; reflexivity. Qed.

(** On an empty registry no candidate is tried and none fails; the 500 of
    the handler then comes from reading `name` of the `undefined`
    operation. *)
Remark empty_registry_type_error :
  fst (generate_video scenario_backend [] max_checks sunset
         (start_state scenario_backend O))
  = Returned (Some (reply_internal_error
                      "Cannot read properties of undefined (reading 'name')")).
Proof. vm_compute. reflexivity. Qed.

(** * Further properties of the handler and the prober *)

Lemma added_unique : forall (B : backend) (s s' : state B) e1 e2,
  added s s' e1 -> added s s' e2 -> e1 = e2.
Proof.
  unfold added. intros B s s' e1 e2 H1 H2. rewrite H1 in H2.
  exact (app_inv_head _ _ _ H2).
Qed.

Lemma paced_weaken : forall gap lo lo' ts,
  lo' <= lo -> paced gap lo ts -> paced gap lo' ts.
Proof.
  intros gap lo lo' ts Hle H. destruct ts as [|t r]; [exact I|].
  cbn in *. destruct H as [H1 H2]. split; [lia | exact H2].
Qed.

(** Paced times below a bound are few. *)
Lemma paced_count : forall gap hi ts lo,
  0 < gap -> paced gap lo ts -> Forall (fun t => t < hi) ts -> ts <> [] ->
  lo + gap * (Z.of_nat (List.length ts) - 1) < hi.
Proof.
  intros gap hi ts; induction ts as [|t r IH]; intros lo Hgap Hp Hall Hne;
    [congruence|].
  cbn [paced] in Hp. destruct Hp as [Hlo Hp]. inversion Hall as [|? ? Ht Hr]; subst.
  destruct r as [|t2 r'].
  - cbn. lia.
  - specialize (IH (t + gap) Hgap Hp Hr ltac:(discriminate)).
    cbn [List.length] in *. lia.
Qed.

Section MoreProofs.

Variable B : backend.
Variable modelEndpoints : list string.

Notation "'probe'" := (checkOperationStatusComprehensive B modelEndpoints).
Notation "'tick'" := (poll_tick B modelEndpoints).
Notation "'loop'" := (poll_loop B modelEndpoints).
Notation "'lookups'" := (lookup_candidates B).
Notation "'handler'" := (generate_video B modelEndpoints).
Notation "'submission'" := (submit B modelEndpoints).
Notation "'submit_over'" := (submit_loop B modelEndpoints).

(** The handler on a request without a usable prompt. *)
Lemma handler_without_prompt : forall fuel body s,
  truthy (prompt body) = false ->
  handler fuel body s
  = (Returned (Some (mk_reply 400 [("error", "Prompt is required")]%string)),
     say s (LogReceived body)).
Proof.
  intros fuel body s Hp. unfold generate_video.
  cbv [try_catch bind console emit ret]. rewrite Hp. reflexivity.
Qed.

(** X1.  A request without a prompt, or with an empty one, is answered
    400 `Prompt is required` at once: the only effect is the console line
    of the received request; nothing is submitted and nothing is polled. *)
Theorem prompt_required :
  forall fuel body s,
    truthy (prompt body) = false ->
    exists s' evs,
      handler fuel body s
      = (Returned (Some (mk_reply 400 [("error", "Prompt is required")]%string)), s') /\
      added s s' evs /\ generated evs = [] /\ polling evs = [] /\
      clock s' = clock s.
Proof.
  intros fuel body s Hp. rewrite (handler_without_prompt fuel body s Hp).
  eexists; eexists. split; [reflexivity|]. split; [reflexivity|].
  split; [reflexivity|]. split; reflexivity.
Qed.

(** X2.  Whatever the backend does, the handler never throws and, within
    [max_checks] evaluations of the loop condition, answers with status
    200, 400, 500 or 504. *)
Theorem handler_always_replies :
  forall body s,
    exists a s',
      handler max_checks body s = (Returned (Some a), s') /\
      In (reply_status a) [200; 400; 500; 504].
Proof.
  intros body s. destruct (truthy (prompt body)) eqn:Hp.
  - rewrite (handler_of_submit B modelEndpoints max_checks body s Hp).
    destruct (submit_frame B modelEndpoints (build_request body) (say s (LogReceived body)))
      as (r & s1 & evs & Hrun & _ & _ & _ & Hthrow).
    rewrite Hrun. destruct r as [e|[id model]].
    + rewrite (Hthrow e eq_refl). eexists; eexists. split; [reflexivity|].
      cbn. tauto.
    + pose proof max_checks_eq as Hm. remember 480%nat as n eqn:Hn. rewrite Hm.
      destruct (loop_enough_fuel B modelEndpoints n id model (clock s1) s1)
        as (a & s' & Hl); [unfold maxWaitSeconds; rewrite Hn; lia|].
      destruct (loop_frame B modelEndpoints (S n) id model (clock s1) s1)
        as (r & s2 & evs' & Hl2 & _ & _ & _ & _ & _ & Hst).
      exists a, s'. split; [exact Hl|]. apply Hst.
      rewrite Hl in Hl2. injection Hl2 as <- _. reflexivity.
  - pose proof max_checks_eq as Hm. remember 480%nat as n eqn:Hn. rewrite Hm.
    rewrite (handler_without_prompt (S n) body s Hp).
    eexists; eexists. split; [reflexivity|]. cbn. tauto.
Qed.

(** X3.  No path of the handler answers 429, whatever the backend does
    and whatever errors it raises: an error of a submission attempt never
    leaves the `catch` of the submission loop, which throws a fresh
    `Error` without a `code`, so the `error.code === 429` branch of the
    outer `catch` is never taken. *)
Theorem quota_branch_unreachable :
  forall fuel body s,
    exists r s',
      generate_video B modelEndpoints fuel body s = (Returned r, s') /\
      forall a, r = Some a -> reply_status a <> 429.
Proof. exact (handler_never_429 B modelEndpoints). Qed.

(** X11.  The operation id the handler polls with, and the id the prober
    puts into its URLs, is the part of the resource name after its last
    slash: it contains no slash, and the name is either that id alone or a
    prefix, a slash and the id. *)
Theorem operation_id_is_last_segment :
  forall name,
    includes slash (last_segment name) = false /\
    cleanOperationId_of name = last_segment name /\
    (name = last_segment name \/
     exists pre, name = (pre ++ "/" ++ last_segment name)%string).
Proof.
  intros name. destruct (last_segment_spec name) as [Hno Hshape].
  split; [exact Hno|]. split; [apply cleanOperationId_last_segment | exact Hshape].
Qed.

(** X4.  A `done` payload that has a `response` ends the loop in the pass
    that received it, without a further wait: 400 when the filtered count
    is positive, whatever videos are listed; otherwise 500 `No video
    generated` when the first video has no non-empty `gcsUri`; otherwise
    200 with that locator, the endpoint that resolved the probe and the
    model that accepted the submission. *)
Theorem done_payload_classified_at_once :
  forall fuel id model start s p endpoint s1 r,
    clock s - start < maxWaitSeconds * 1000 ->
    probe id s = (Returned (Success p endpoint), s1) ->
    done p = true -> response p = Some r ->
    exists a s',
      loop (S fuel) id model start s = (Returned (Some a), s') /\
      clock s' = clock s1 /\
      ((exists n, raiMediaFilteredCount r = Some n /\ 0 < n) -> a = reply_filtered) /\
      ((forall n, raiMediaFilteredCount r = Some n -> n <= 0) ->
       match videos r with
       | Some (v :: _) =>
           match gcsUri v with
           | Some u => if String.eqb u "" then a = reply_no_video
                       else a = reply_success u id endpoint model
           | None => a = reply_no_video
           end
       | _ => a = reply_no_video
       end).
Proof.
  intros fuel id model start s p endpoint s1 r Hlt Hp Hd Hr.
  rewrite loop_step. apply Z.ltb_lt in Hlt. rewrite Hlt.
  rewrite (tick_of_probe B modelEndpoints id model s _ _ Hp). cbv zeta.
  rewrite Hd, Hr. unfold filtered, first_gcsUri, truthy.
  destruct (raiMediaFilteredCount r) as [n|] eqn:Hn.
  - destruct (0 <? n) eqn:Hpos.
    + eexists; eexists. split; [reflexivity|]. split; [reflexivity|].
      split; [reflexivity|]. intros H. apply Z.ltb_lt in Hpos.
      specialize (H n eq_refl). lia.
    + apply Z.ltb_ge in Hpos.
      destruct (videos r) as [[|v vs]|]; [| destruct (gcsUri v) as [u|];
        [destruct (String.eqb u "") eqn:Hu|] |];
        cbn [negb]; eexists; eexists; (split; [reflexivity|]);
        (split; [reflexivity|]);
        (split; [intros (n' & Hn' & Hpos'); injection Hn' as <-; lia|]);
        intros _; try rewrite Hu; reflexivity.
  - destruct (videos r) as [[|v vs]|]; [| destruct (gcsUri v) as [u|];
      [destruct (String.eqb u "") eqn:Hu|] |];
      cbn [negb]; eexists; eexists; (split; [reflexivity|]);
      (split; [reflexivity|]);
      (split; [intros (n' & Hn' & Hpos'); discriminate|]);
      intros _; try rewrite Hu; reflexivity.
Qed.

(** X5.  A payload that is not `done` produces no reply: the pass logs
    the status and, the ceiling not being reached, the loop waits at least
    30 seconds and goes on with the next pass. *)
Theorem not_done_keeps_polling :
  forall fuel id model start s p endpoint s1,
    probe id s = (Returned (Success p endpoint), s1) ->
    done p = false ->
    tick id model s = (Returned None, say s1 (LogStatus endpoint p)) /\
    (clock s - start < maxWaitSeconds * 1000 ->
       loop (S fuel) id model start s =
       loop fuel id model start (snd (sleep B 30000 (say s1 (LogStatus endpoint p)))) /\
       clock s1 + 30000 <= clock (snd (sleep B 30000 (say s1 (LogStatus endpoint p))))).
Proof.
  intros fuel id model start s p endpoint s1 Hp Hd.
  pose proof (tick_of_probe B modelEndpoints id model s _ _ Hp) as Ht.
  cbv beta iota zeta in Ht. rewrite Hd in Ht. split; [exact Ht|].
  intros Hlt. split.
  - rewrite loop_step, Ht. apply Z.ltb_lt in Hlt. rewrite Hlt. reflexivity.
  - destruct (sleep_frame B 30000 (say s1 (LogStatus endpoint p))) as (s2 & Hs & _ & Hclk).
    rewrite Hs. exact Hclk.
Qed.

(** The candidate loop of the prober up to the first lookup that answers
    200. *)
Lemma lookups_first_200 : forall tok cid c p post pre s,
  (forall x w, In x pre ->
     match fst (fst (axios_get_io B (candidate_url x cid) tok w)) with
     | inr a => status a <> 200
     | inl _ => True
     end) ->
  (forall w, exists a,
     fst (fst (axios_get_io B (candidate_url c cid) tok w)) = inr a /\
     status a = 200 /\ data a = p) ->
  exists s' evs,
    lookups tok cid (pre ++ c :: post) s = (Returned (Some (Success p c)), s') /\
    added s s' evs /\
    requested evs = map (fun x => candidate_url x cid) pre ++ [candidate_url c cid].
Proof.
  intros tok cid c p post pre; induction pre as [|x pre IH]; intros s Hpre Hc.
  - cbn [app map].
    destruct (lookups_cons B tok cid c post s) as (s1 & evs & Hstep & Hadd & Hreq & _).
    destruct (Hc (world s)) as (a & Ha & H200 & Hdata).
    destruct (axios_get_io B (candidate_url c cid) tok (world s)) as [[r d] w'].
    cbn [fst] in Ha. subst r. apply Z.eqb_eq in H200. rewrite H200, Hdata in Hstep.
    exists s1, evs. split; [exact Hstep|]. split; assumption.
  - cbn [app map].
    destruct (lookups_cons B tok cid x (pre ++ c :: post) s)
      as (s1 & e1 & Hstep & Hadd1 & Hreq1 & _).
    destruct (IH s1) as (s' & e2 & Hrun & Hadd2 & Hreq2);
      [intros y w Hy; apply Hpre; right; exact Hy | exact Hc |].
    assert (Hgo : lookups tok cid (x :: pre ++ c :: post) s
                  = lookups tok cid (pre ++ c :: post) s1).
    { specialize (Hpre x (world s) (or_introl eq_refl)).
      destruct (axios_get_io B (candidate_url x cid) tok (world s)) as [[[e|a] d] w'];
        cbn [fst] in Hpre; [exact Hstep|].
      apply Z.eqb_neq in Hpre. rewrite Hpre in Hstep. exact Hstep. }
    exists s', (e1 ++ e2). rewrite Hgo. split; [exact Hrun|].
    split; [eapply added_trans; eassumption|].
    rewrite requested_app, Hreq1, Hreq2. reflexivity.
Qed.

(** The prober up to the first lookup that answers 200. *)
Lemma probe_first_200 :
  forall id s tok pre c post p,
    fst (fst (getAccessToken_io B (world s))) = inr tok ->
    modelEndpoints = pre ++ c :: post ->
    (forall x w, In x pre ->
       match fst (fst (axios_get_io B (candidate_url x (cleanOperationId_of id)) tok w)) with
       | inr a => status a <> 200
       | inl _ => True
       end) ->
    (forall w, exists a,
       fst (fst (axios_get_io B (candidate_url c (cleanOperationId_of id)) tok w)) = inr a /\
       status a = 200 /\ data a = p) ->
    exists s' evs,
      probe id s = (Returned (Success p c), s') /\ added s s' evs /\
      requested evs =
        map (fun x => candidate_url x (cleanOperationId_of id)) pre
        ++ [candidate_url c (cleanOperationId_of id)].
Proof.
  intros id s tok pre c post p Htok E Hpre Hc.
  destruct (getAccessToken_io B (world s)) as [[r d] w'] eqn:Hio.
  cbn [fst] in Htok. subst r.
  rewrite (probe_token_ok B modelEndpoints id s tok d w' Hio).
  destruct (lookups_first_200 tok (cleanOperationId_of id) c p post pre
              (after_token s d w') Hpre Hc) as (s' & evs & Hrun & Hadd & Hreq).
  rewrite <- E in Hrun. rewrite Hrun.
  exists s', ([(clock s, EvGetAccessToken)] ++ evs). split; [reflexivity|].
  split; [apply (added_trans B s (after_token s d w') s'); [reflexivity | exact Hadd]|].
  rewrite requested_app, Hreq. reflexivity.
Qed.

(** X6.  With the token in hand, the prober returns the payload of the
    first candidate, in registry order, whose lookup answers 200, tagged
    with that candidate.  Candidates before it may fail in any way (404,
    another HTTP error, a transport error, a 2xx other than 200); the
    lookups made are theirs and its own, nothing after it is requested. *)
Theorem probe_first_200_wins :
  forall id s tok pre c post p,
    fst (fst (getAccessToken_io B (world s))) = inr tok ->
    modelEndpoints = pre ++ c :: post ->
    (forall x w, In x pre ->
       match fst (fst (axios_get_io B (candidate_url x (cleanOperationId_of id)) tok w)) with
       | inr a => status a <> 200
       | inl _ => True
       end) ->
    (forall w, exists a,
       fst (fst (axios_get_io B (candidate_url c (cleanOperationId_of id)) tok w)) = inr a /\
       status a = 200 /\ data a = p) ->
    exists s' evs,
      probe id s = (Returned (Success p c), s') /\ added s s' evs /\
      requested evs =
        map (fun x => candidate_url x (cleanOperationId_of id)) pre
        ++ [candidate_url c (cleanOperationId_of id)].
Proof. exact probe_first_200. Qed.

(** X7.  The prober never throws and never submits.  It asks for one
    token, at the time it is called, and makes at most one lookup per
    candidate plus the generic one; when the token cannot be had it makes
    no lookup at all. *)
Theorem probe_is_bounded :
  forall id s,
    exists res s' evs,
      probe id s = (Returned res, s') /\ added s s' evs /\
      probe_starts evs = [clock s] /\ generated evs = [] /\
      (List.length (requested evs) <= List.length modelEndpoints + 1)%nat /\
      (forall e, fst (fst (getAccessToken_io B (world s))) = inl e ->
                 requested evs = []).
Proof.
  intros id s.
  destruct (probe_frame B modelEndpoints id s)
    as (res & s' & evs & Hp & Hadd & Hps & Hgen & _ & _ & Hreq).
  exists res, s', evs. split; [exact Hp|]. split; [exact Hadd|].
  split; [exact Hps|]. split; [exact Hgen|].
  destruct (fst (fst (getAccessToken_io B (world s)))) as [e|tok].
  - destruct Hreq as [_ Hreq]. rewrite Hreq. split; [cbn; lia|]. intros; reflexivity.
  - destruct Hreq as (k & _ & Hreq). split; [|intros e H; discriminate].
    rewrite Hreq, length_firstn, length_app, length_map. cbn. lia.
Qed.

Lemma cleanOperationId_idempotent : forall id,
  cleanOperationId_of (last_segment id) = cleanOperationId_of id.
Proof.
  intros id. rewrite (cleanOperationId_last_segment id).
  unfold cleanOperationId_of at 1.
  destruct (last_segment_spec id) as [Hno _]. rewrite Hno. reflexivity.
Qed.

(** X8.  The prober may be given a full resource name or a bare
    operation id: it behaves on a name exactly as on the last segment of
    that name. *)
Theorem probe_accepts_resource_name :
  forall name s, probe name s = probe (last_segment name) s.
Proof.
  intros name s. unfold checkOperationStatusComprehensive.
  rewrite (cleanOperationId_idempotent name). reflexivity.
Qed.

(** The probes of the loop are at least 30 seconds apart. *)
Lemma loop_paced : forall fuel id model start s,
  exists r s' evs,
    loop fuel id model start s = (Returned r, s') /\ added s s' evs /\
    paced 30000 (clock s) (probe_starts evs).
Proof.
  induction fuel as [|fuel IH]; intros id model start s.
  - exists None, s, []. split; [reflexivity|]. split; [apply added_refl | exact I].
  - rewrite loop_step. destruct (clock s - start <? maxWaitSeconds * 1000).
    + destruct (tick_frame B modelEndpoints id model s)
        as (r & s1 & e1 & Ht & Hadd1 & Hps1 & _ & Hclk1 & _).
      rewrite Ht. destruct r as [a|].
      * exists (Some a), s1, e1. split; [reflexivity|]. split; [exact Hadd1|].
        rewrite Hps1. cbn. split; [lia | exact I].
      * destruct (sleep_frame B 30000 s1) as (s2 & Hs & Hadd2 & Hclk2).
        rewrite Hs. cbn [snd].
        destruct (IH id model start s2) as (r3 & s3 & e3 & Hl & Hadd3 & Hp3).
        exists r3, s3, (e1 ++ [(clock s1, EvSleep 30000)] ++ e3).
        split; [exact Hl|].
        split; [eapply added_trans; [eassumption|]; eapply added_trans; eassumption|].
        rewrite !probe_starts_app, Hps1. cbn [probe_starts app paced].
        split; [lia|]. apply (paced_weaken 30000 (clock s2)); [lia | exact Hp3].
    + eexists; eexists; eexists. split; [reflexivity|]. split; [reflexivity|].
      exact I.
Qed.

(** X9.  Entered at `startTime`, the polling loop starts its probes at
    least 30 seconds apart, the first not before `startTime`; so one
    request makes at most 480 probes. *)
Theorem probes_paced :
  forall fuel id model s,
    exists r s' evs,
      loop fuel id model (clock s) s = (Returned r, s') /\ added s s' evs /\
      paced 30000 (clock s) (probe_starts evs) /\
      (List.length (probe_starts evs) <= 480)%nat.
Proof.
  intros fuel id model s.
  destruct (loop_paced fuel id model (clock s) s) as (r & s' & evs & Hl & Hadd & Hp).
  destruct (loop_frame B modelEndpoints fuel id model (clock s) s)
    as (r2 & s2 & evs2 & Hl2 & Hadd2 & Hall & _).
  rewrite Hl in Hl2. injection Hl2 as <- <-.
  pose proof (added_unique B s s' _ _ Hadd Hadd2) as <-.
  exists r, s', evs. split; [exact Hl|]. split; [exact Hadd|]. split; [exact Hp|].
  destruct (probe_starts evs) as [|t ts] eqn:E; [cbn; lia|].
  assert (Hlt : clock s + 30000 * (Z.of_nat (List.length (t :: ts)) - 1)
                < clock s + maxWaitSeconds * 1000).
  { apply (paced_count 30000 _ (t :: ts) (clock s)); [lia | exact Hp | | discriminate].
    eapply Forall_impl; [|exact Hall]. cbn beta. intros a Ha. lia. }
  unfold maxWaitSeconds in Hlt. lia.
Qed.

(** X10.  The diagnostic route always answers with the result of the
    prober as JSON, with HTTP 200 also when the result is a failure; its
    500 branch is never taken, because the prober never throws. *)
Theorem check_operation_never_500 :
  forall id s,
    exists result s',
      probe id s = (Returned result, s') /\
      check_operation B modelEndpoints id s
      = (Returned ([LogCheckingOperation id], OperationJson result), s').
Proof.
  intros id s.
  destruct (probe_frame B modelEndpoints id s) as (res & s' & evs & Hp & _).
  exists res, s'. split; [exact Hp|].
  unfold check_operation, try_catch, bind. rewrite Hp. reflexivity.
Qed.

(** The submission loop hands to `generateContent` an initial segment of
    the candidates it is run over. *)
Lemma submit_loop_attempts : forall rq cs s,
  exists evs rest,
    added s (snd (submit_over rq cs s)) evs /\ cs = generated evs ++ rest.
Proof.
  intros rq cs; induction cs as [|c cs IH]; intros s.
  - exists [], []. split; [apply added_refl | reflexivity].
  - destruct (submit_loop_cons B modelEndpoints rq c cs s)
      as (s1 & e1 & Hstep & Hadd1 & Hgen1 & _).
    destruct (fst (fst (generateContent_io B c rq (world s)))) as [e|op].
    + destruct (is_last_endpoint modelEndpoints c).
      * exists e1, cs. rewrite Hstep, Hgen1. split; [exact Hadd1 | reflexivity].
      * destruct (IH s1) as (e2 & rest & Hadd2 & Hgen2).
        exists (e1 ++ e2), rest. rewrite Hstep. split.
        -- eapply added_trans; eassumption.
        -- rewrite generated_app, Hgen1. cbn. rewrite <- Hgen2. reflexivity.
    + exists e1, cs. rewrite Hstep, Hgen1. split; [exact Hadd1 | reflexivity].
Qed.

(** X12.  Whatever the backend does and however the request ends, the
    candidates the handler hands to `generateContent` are an initial
    segment of the registry, in registry order: no candidate is tried
    twice, none is skipped, and nothing is resubmitted while polling. *)
Theorem handler_submits_in_registry_order :
  forall fuel body s,
    exists evs rest,
      added s (snd (handler fuel body s)) evs /\
      modelEndpoints = generated evs ++ rest.
Proof.
  intros fuel body s. destruct (truthy (prompt body)) eqn:Hp.
  - rewrite (handler_of_submit B modelEndpoints fuel body s Hp), submit_of_loop.
    set (s0 := say s (LogReceived body)).
    assert (Hadd0 : added s s0 [(clock s, EvConsole (LogReceived body))]) by reflexivity.
    destruct (submit_loop_attempts (build_request body) modelEndpoints s0)
      as (e1 & rest & Hadd1 & Hgen1).
    destruct (submit_over (build_request body) modelEndpoints s0) as [[e|[[op c]|]] s1];
      cbn [snd] in Hadd1 |- *.
    + exists ([(clock s, EvConsole (LogReceived body))] ++ e1
              ++ [(clock s1, EvConsole (LogHandlerError (message e)))]), rest.
      split.
      * eapply added_trans; [exact Hadd0|]. apply added_say. exact Hadd1.
      * rewrite !generated_app. cbn [generated app]. rewrite app_nil_r. exact Hgen1.
    + set (s2 := say s1 (LogOperationId (last_segment (name op)) c)).
      destruct (loop_frame B modelEndpoints fuel (last_segment (name op)) c (clock s2) s2)
        as (r & s3 & e3 & Hl & Hadd3 & _ & Hgen3 & _).
      rewrite Hl. cbn [snd].
      exists ([(clock s, EvConsole (LogReceived body))]
              ++ (e1 ++ [(clock s1, EvConsole (LogOperationId (last_segment (name op)) c))])
              ++ e3), rest.
      split.
      * eapply added_trans; [exact Hadd0|]. eapply added_trans; [|exact Hadd3].
        apply added_say. exact Hadd1.
      * rewrite !generated_app, Hgen3. cbn [generated app]. rewrite !app_nil_r.
        exact Hgen1.
    + exists ([(clock s, EvConsole (LogReceived body))] ++ e1
              ++ [(clock s1, EvConsole
                     (LogHandlerError (message (TypeError_undefined "name"))))]), rest.
      split.
      * eapply added_trans; [exact Hadd0|]. apply added_say. exact Hadd1.
      * rewrite !generated_app. cbn [generated app]. rewrite app_nil_r. exact Hgen1.
  - rewrite (handler_without_prompt fuel body s Hp). cbn [snd].
    exists [(clock s, EvConsole (LogReceived body))], modelEndpoints.
    split; reflexivity.
Qed.


End MoreProofs.


(** * retryOperation *)

Section RetryProofs.

Variable A : Type.
Variable answers : nat -> js_error + A.
Variables maxAttempts minDelayMs maxDelayMs : Z.

Notation "'retry'" := (retry_loop answers maxAttempts minDelayMs maxDelayMs).

(** The loop entered with [attempts] failures behind it and attempts
    left: it ends at some call [k] with what that call answers; the calls
    before [k] were all answered `code` 5; it waits once per such call. *)
Lemma retry_loop_spec : forall fuel attempts,
  0 <= attempts -> attempts < maxAttempts ->
  (Z.to_nat (maxAttempts - attempts) <= fuel)%nat ->
  exists n effects,
    retry fuel attempts
    = Some (outcome_of (answers (Z.to_nat attempts + n)), effects) /\
    attempts + Z.of_nat n < maxAttempts /\
    (forall j, (Z.to_nat attempts <= j < Z.to_nat attempts + n)%nat ->
               exists e, answers j = inl e /\ code e = Some 5) /\
    (forall e, answers (Z.to_nat attempts + n)%nat = inl e ->
               code e <> Some 5 \/ attempts + Z.of_nat n = maxAttempts - 1) /\
    retry_calls effects = S n /\
    retry_sleeps effects
    = map (fun k => retry_delay minDelayMs maxDelayMs (Z.of_nat k))
          (seq (S (Z.to_nat attempts)) n).
Proof.
  induction fuel as [|fuel IH]; intros attempts H0 Hlt Hfuel; [lia|].
  cbn [retry_loop]. apply Z.ltb_lt in Hlt as Hltb. rewrite Hltb.
  destruct (answers (Z.to_nat attempts)) as [error|result] eqn:Hans.
  - destruct (code_is_not_5 error || (attempts =? maxAttempts - 1)) eqn:Hstop.
    + exists O, [RetryGet]. rewrite Nat.add_0_r, Hans.
      split; [reflexivity|]. split; [lia|]. split; [intros j Hj; lia|].
      split; [|split; reflexivity].
      intros e He. injection He as <-. apply orb_true_iff in Hstop.
      destruct Hstop as [Hc|Hl].
      * left. unfold code_is_not_5 in Hc. destruct (code error) as [c|]; [|discriminate].
        intros E. injection E as ->. discriminate.
      * right. apply Z.eqb_eq in Hl. lia.
    + apply orb_false_iff in Hstop. destruct Hstop as [Hc Hl].
      apply Z.eqb_neq in Hl.
      assert (Hcode : code error = Some 5).
      { unfold code_is_not_5 in Hc. destruct (code error) as [c|]; [|discriminate].
        apply negb_false_iff, Z.eqb_eq in Hc. subst c. reflexivity. }
      destruct (IH (attempts + 1)) as (n & effects & Hrun & Hn & Hbefore & Hlast & Hcalls & Hsleeps);
        [lia | lia | lia |].
      assert (Hnat : Z.to_nat (attempts + 1) = S (Z.to_nat attempts)) by lia.
      rewrite Hnat in *.
      exists (S n). eexists. rewrite Hrun.
      replace (Z.to_nat attempts + S n)%nat with (S (Z.to_nat attempts) + n)%nat by lia.
      split; [reflexivity|]. split; [lia|]. split.
      * intros j Hj. destruct (Nat.eq_dec j (Z.to_nat attempts)) as [->|Hne].
        -- exists error. split; assumption.
        -- apply Hbefore. lia.
      * split; [intros e He; destruct (Hlast e He); [left; assumption | right; lia]|].
        split; [cbn; rewrite Hcalls; reflexivity|].
        cbn [retry_sleeps seq map]. rewrite Hsleeps. f_equal.
        f_equal. lia.
  - exists O, [RetryGet]. rewrite Nat.add_0_r, Hans.
    split; [reflexivity|]. split; [lia|]. split; [intros j Hj; lia|].
    split; [intros e He; discriminate|]. split; reflexivity.
Qed.

(** X16.  Without any attempt (`maxAttempts` zero or a negative integer)
    the function never calls `operation.get()` and throws its own error,
    `Max retry attempts reached`. *)
Theorem retryOperation_without_attempts :
  maxAttempts <= 0 ->
  retryOperation answers maxAttempts minDelayMs maxDelayMs
  = Some (Threw (Error "Max retry attempts reached"), []).
Proof.
  intros Hmax. unfold retryOperation. cbn [retry_loop].
  apply Z.ltb_ge in Hmax. rewrite Hmax. reflexivity.
Qed.

End RetryProofs.

(** X14.  `retryOperation(operation, 5, 1000, 60000)`, as the polling
    loop of nodejs_veo3_server.js calls it, whatever the operation
    answers: it ends at some call [k] among the first five with exactly
    what that call answers; every earlier call was rejected with `code`
    5; a rejection it rethrows either has another code or comes from the
    fifth call; it has made [k + 1] calls, and waited [k] times, for 2000,
    4000, 8000 and 16000 ms in this order.  So it never throws its own
    `Max retry attempts reached` and never waits 1000 or 60000 ms. *)
Theorem retryOperation_at_call_site :
  forall (A : Type) (answers : nat -> js_error + A),
    exists k effects,
      retryOperation answers 5 1000 60000
      = Some (outcome_of (answers k), effects) /\
      (k < 5)%nat /\
      (forall j, (j < k)%nat -> exists e, answers j = inl e /\ code e = Some 5) /\
      (forall e, answers k = inl e -> code e <> Some 5 \/ k = 4%nat) /\
      retry_calls effects = S k /\
      retry_sleeps effects = firstn k [2000; 4000; 8000; 16000].
Proof.
  intros A answers. unfold retryOperation.
  destruct (retry_loop_spec A answers 5 1000 60000 (S (Z.to_nat 5)) 0)
    as (n & effects & Hrun & Hn & Hbefore & Hlast & Hcalls & Hsleeps);
    [lia | lia | lia |].
  exists n, effects. cbn [Z.to_nat Nat.add] in Hrun, Hbefore, Hlast, Hsleeps.
  split; [exact Hrun|]. split; [lia|].
  split; [intros j Hj; apply Hbefore; lia|].
  split; [intros e He; destruct (Hlast e He); [left; assumption | right; lia]|].
  split; [exact Hcalls|]. rewrite Hsleeps.
  do 5 (destruct n as [|n]; [reflexivity|]). lia.
Qed.

(** * The further properties on concrete scenarios *)

(** X1 on a body without a prompt. *)
Lemma prompt_required_witness :
  exists s' evs,
    generate_video scenario_backend modelEndpoints_src max_checks no_prompt
      (start_state scenario_backend O)
    = (Returned (Some (mk_reply 400 [("error", "Prompt is required")]%string)), s') /\
    added (start_state scenario_backend O) s' evs /\
    generated evs = [] /\ polling evs = [] /\ clock s' = 0.
Proof.
  apply (prompt_required scenario_backend modelEndpoints_src max_checks no_prompt
           (start_state scenario_backend O)).
  reflexivity.
Defined.

(** X4 on a payload that is filtered and lists a video all the same:
    the reply is the 400. *)
Lemma done_payload_classified_at_once_witness :
  exists s',
    poll_loop filtered_backend modelEndpoints_src 1 "op42" "veo-3" 0
      (start_state filtered_backend O)
    = (Returned (Some reply_filtered), s').
Proof.
  destruct (done_payload_classified_at_once filtered_backend modelEndpoints_src
              O "op42" "veo-3" 0 (start_state filtered_backend O)
              filtered_payload "veo-3"
              (snd (checkOperationStatusComprehensive filtered_backend
                      modelEndpoints_src "op42" (start_state filtered_backend O)))
              (mk_response (Some 1) (Some [mk_video (Some "gs://bucket/v.mp4")])))
    as (a & s' & Hl & _ & Hfiltered & _).
  - cbn. lia.
  - vm_compute. reflexivity.
  - reflexivity.
  - reflexivity.
  - exists s'. rewrite Hl, Hfiltered; [reflexivity|].
    exists 1. split; [reflexivity | lia].
Defined.

(** X5 on an operation that never completes. *)
Lemma not_done_keeps_polling_witness :
  fst (poll_tick never_done_backend modelEndpoints_src "op42" "veo-3"
         (start_state never_done_backend O))
  = Returned None.
Proof.
  destruct (not_done_keeps_polling never_done_backend modelEndpoints_src
              O "op42" "veo-3" 0 (start_state never_done_backend O)
              (mk_payload false None) "veo-3"
              (snd (checkOperationStatusComprehensive never_done_backend
                      modelEndpoints_src "op42" (start_state never_done_backend O))))
    as (Ht & _).
  - vm_compute. reflexivity.
  - reflexivity.
  - rewrite Ht. reflexivity.
Defined.

(** X6 on a backend where the first candidate's lookup fails with a 500
    and the second candidate's URL knows the operation. *)
Lemma probe_first_200_wins_witness :
  exists s' evs,
    checkOperationStatusComprehensive second_candidate_backend modelEndpoints_src
      "op42" (start_state second_candidate_backend O)
    = (Returned (Success (mk_payload false None) "veo-3.0-generate-001"), s') /\
    added (start_state second_candidate_backend O) s' evs /\
    requested evs = [candidate_url "veo-3" "op42";
                     candidate_url "veo-3.0-generate-001" "op42"].
Proof.
  apply (probe_first_200_wins second_candidate_backend modelEndpoints_src
           "op42" (start_state second_candidate_backend O) "tok"
           ["veo-3"%string] "veo-3.0-generate-001" ["video-generation"%string]
           (mk_payload false None)).
  - reflexivity.
  - reflexivity.
  - intros x w [<-|[]]. exact I.
  - intros w. exists (mk_axios 200 (mk_payload false None)).
    split; [reflexivity|]. split; reflexivity.
Defined.


(** X16 with no attempt allowed. *)
Lemma retryOperation_without_attempts_witness :
  retryOperation found_at_third 0 1000 60000
  = Some (Threw (Error "Max retry attempts reached"), []).
Proof.
  apply (retryOperation_without_attempts status_payload found_at_third 0 1000 60000).
  lia.
Defined.
